(** * DAG-PB codec: a shallow embedding of [src/index.js]

    The JavaScript values the module handles are embedded as the inductive
    type [JsVal]; thrown exceptions become the [Throw] case of [result].
    The content-identifier library ([multiformats/cid]) is an interface,
    [ContentIdentifier]; the wire-format helpers [encodeNode] and
    [decodeNode] ([pb-encode.js], [pb-decode.js]) are embedded from the
    written specification of the wire format. *)

From Stdlib Require Import ZArith NArith QArith List String Ascii Bool Lia Sorted.
From Stdlib Require Import Permutation.
From Stdlib.Strings Require Import Byte.
Import ListNotations.

Local Open Scope string_scope.
Local Open Scope list_scope.
Local Open Scope Z_scope.

Set Implicit Arguments.
Set Warnings "-register-all".

(** ** Exceptions *)

Inductive exn : Type :=
| TypeError (msg : string)
| Error (msg : string).

Inductive result (A : Type) : Type :=
| Ok (a : A)
| Throw (e : exn).

Arguments Ok {A} a.
Arguments Throw {A} e.

Definition bind {A B : Type} (r : result A) (k : A -> result B) : result B :=
  match r with
  | Ok a => k a
  | Throw e => Throw e
  end.

Notation "x <- r ;; k" := (bind r (fun x => k))
  (at level 61, r at next level, right associativity).

Definition isOk {A : Type} (r : result A) : bool :=
  match r with Ok _ => true | Throw _ => false end.

(** A form error is the [TypeError] the module throws on bad input. *)
Definition isFormError {A : Type} (r : result A) : Prop :=
  exists msg, r = Throw (TypeError msg).

(** [Array.prototype.map] with a callback that may throw: the first
    exception, in index order, escapes. *)
Fixpoint mapM {A B : Type} (f : A -> result B) (l : list A) : result (list B) :=
  match l with
  | [] => Ok []
  | a :: l' => b <- f a ;; bs <- mapM f l' ;; Ok (b :: bs)
  end.

(** ** The content-identifier collaborator *)

Class ContentIdentifier : Type := {
  CID : Type;
  (** [CID.parse(text)]; [None] when it throws *)
  CID_parse : string -> option CID;
  (** [CID.decode(bytes)]; [None] when it throws *)
  CID_decode : list byte -> option CID;
  (** [cid.bytes] *)
  CID_bytes : CID -> list byte
}.

Section DagPB.

Context {cidlib : ContentIdentifier}.

(** ** JavaScript values

    Strings are held as their UTF-8 bytes (a [string] is a list of bytes),
    the bytes [TextEncoder] gives for them: the strings of the embedding
    are the well-formed ones, and a JavaScript string with an unpaired
    surrogate, which [TextEncoder] writes as U+FFFD, has no counterpart
    here.  Numbers are rationals (every finite double is one; NaN and the
    infinities are left out), a [Uint8Array] is a list of bytes, a plain
    object the list of its own properties in insertion order. *)

Inductive JsVal : Type :=
| VUndefined
| VNull
| VBool (b : bool)
| VNum (q : Q)
| VStr (s : string)
| VBytes (b : list byte)
| VCid (c : CID)
| VArr (elems : list JsVal)
| VObj (props : list (string * JsVal)).

Definition typeof (v : JsVal) : string :=
  match v with
  | VUndefined => "undefined"
  | VBool _ => "boolean"
  | VNum _ => "number"
  | VStr _ => "string"
  | VNull | VBytes _ | VCid _ | VArr _ | VObj _ => "object"
  end.

(** ToBoolean *)
Definition truthy (v : JsVal) : bool :=
  match v with
  | VUndefined | VNull => false
  | VBool b => b
  | VNum q => negb (Qnum q =? 0)
  | VStr s => negb (s =? "")%string
  | VBytes _ | VCid _ | VArr _ | VObj _ => true
  end.

Definition isArray (v : JsVal) : bool :=
  match v with VArr _ => true | _ => false end.

Definition isUint8Array (v : JsVal) : bool :=
  match v with VBytes _ => true | _ => false end.

Definition isUndefined (v : JsVal) : bool :=
  match v with VUndefined => true | _ => false end.

Fixpoint lookup (k : string) (props : list (string * JsVal)) : JsVal :=
  match props with
  | [] => VUndefined
  | (k', v) :: rest => if (k =? k')%string then v else lookup k rest
  end.

(** [v.k] for the property names the module reads ([Data], [Links],
    [Hash], [Name], [Tsize]): only a plain object has them.  Reading a
    property of [undefined] or [null] throws; the callers guard it. *)
Definition get (v : JsVal) (k : string) : JsVal :=
  match v with
  | VObj props => lookup k props
  | _ => VUndefined
  end.

(** [o.k = v]: an existing property keeps its place, a new one goes last. *)
Fixpoint setProp (k : string) (v : JsVal) (props : list (string * JsVal))
  : list (string * JsVal) :=
  match props with
  | [] => [(k, v)]
  | (k', v') :: rest =>
      if (k =? k')%string then (k, v) :: rest else (k', v') :: setProp k v rest
  end.

Definition indexKey (i : nat) : string :=
  string_of_list_ascii (map (fun d => ascii_of_nat (48 + d))
    ((fix digits (fuel n : nat) (acc : list nat) : list nat :=
        match fuel with
        | O => acc
        | S fuel' =>
            if (n <? 10)%nat then n :: acc
            else digits fuel' (n / 10)%nat ((n mod 10)%nat :: acc)
        end) (S i) i [])).

(** [Object.keys(v)] for an object [v] that is not [null], which is all
    the module gives it: both calls of [hasOnlyProperties] come after the
    test that the value is a non-null object.  A [Uint8Array] has its
    indices as keys; a CID instance has the own properties its class sets.
    ([Object.keys] throws on [undefined] and [null] and gives the indices
    of a string; these cases, out of reach of the module, are not
    embedded, and nothing below is stated about them.) *)
Definition keys (v : JsVal) : list string :=
  match v with
  | VObj props => map fst props
  | VArr l => map indexKey (seq 0 (List.length l))
  | VBytes b => map indexKey (seq 0 (List.length b))
  | VCid _ => ["version"; "code"; "multihash"; "bytes"]
  | _ => []
  end.

(** ** Constants *)

Definition code : Z := 0x70.
Definition name : string := "dag-pb".
Definition pbNodeProperties : list string := ["Data"; "Links"].
Definition pbLinkProperties : list string := ["Hash"; "Name"; "Tsize"].

(** [textEncoder.encode(v)]: the UTF-8 bytes of a string.  Its callers
    in the module pass a string: [prepare] after [typeof] has said so,
    [linkComparator] on a truthy Name, which is a string in every link
    [validate] and [prepare] compare.  (On another value the code encodes
    [String(v)]; that conversion is not embedded, and what is stated below
    about the bytes of a Name is stated for a Name that is a string.) *)
Definition textEncoder_encode (v : JsVal) : list byte :=
  match v with
  | VStr s => list_byte_of_string s
  | _ => []
  end.

(** ** linkComparator *)

Definition byteAt (buf : list byte) (i : nat) : N :=
  Byte.to_N (nth i buf x00).

(** The [for] loop of [linkComparator]: [n] iterations are left, [i] is the
    index, [x] and [y] the values the loop may overwrite before [break]. *)
Fixpoint scan (abuf bbuf : list byte) (n i : nat) (x y : N) : N * N :=
  match n with
  | O => (x, y)
  | S n' =>
      if negb (byteAt abuf i =? byteAt bbuf i)%N
      then (byteAt abuf i, byteAt bbuf i)
      else scan abuf bbuf n' (S i) x y
  end.

Definition nameBuf (l : JsVal) : list byte :=
  if truthy (get l "Name") then textEncoder_encode (get l "Name") else [].

(** The early [a === b] return is left out: for one and the same object
    the scan below returns 0 as well ([linkComparator_same]). *)
Definition linkComparator (a b : JsVal) : Z :=
  let abuf := nameBuf a in
  let bbuf := nameBuf b in
  let x := N.of_nat (List.length abuf) in
  let y := N.of_nat (List.length bbuf) in
  let '(x, y) := scan abuf bbuf (Nat.min (List.length abuf) (List.length bbuf)) 0 x y in
  if (x <? y)%N then -1 else if (y <? x)%N then 1 else 0.

(** ** hasOnlyProperties *)

Definition includes (properties : list string) (p : string) : bool :=
  existsb (fun q => (q =? p)%string) properties.

Definition hasOnlyProperties (node : JsVal) (properties : list string) : bool :=
  negb (existsb (fun p => negb (includes properties p)) (keys node)).

(** ** asLink *)

(** [CID.asCID(v)]: the value itself when it is a CID, [null] otherwise. *)
Definition CID_asCID (v : JsVal) : option CID :=
  match v with VCid c => Some c | _ => None end.

(** The [if (link.Hash) { ... }] block of [asLink]: the content
    identifier found, if any; a failure of the CID library is rethrown as a
    [TypeError]. *)
Definition resolveHash (hash : JsVal) : result (option CID) :=
  if truthy hash then
    match CID_asCID hash with
    | Some c => Ok (Some c)
    | None =>
        match hash with
        | VStr s =>
            match CID_parse s with
            | Some c => Ok (Some c)
            | None => Throw (TypeError "Invalid DAG-PB form: CID.parse failed")
            end
        | VBytes b =>
            match CID_decode b with
            | Some c => Ok (Some c)
            | None => Throw (TypeError "Invalid DAG-PB form: CID.decode failed")
            end
        | _ => Ok None
        end
    end
  else Ok None.

Definition asLink (link : JsVal) : result JsVal :=
  match link with
  | VUndefined | VNull =>
      (* reading [link.Hash] throws *)
      Throw (TypeError "Cannot read property 'Hash'")
  | _ =>
      cid <- resolveHash (get link "Hash") ;;
      match cid with
      | None => Throw (TypeError "Invalid DAG-PB form")
      | Some c =>
          let pbl := [("Hash", VCid c)] in
          let pbl := if (typeof (get link "Name") =? "string")%string
                     then setProp "Name" (get link "Name") pbl else pbl in
          let pbl := if (typeof (get link "Tsize") =? "number")%string
                     then setProp "Tsize" (get link "Tsize") pbl else pbl in
          Ok (VObj pbl)
      end
  end.

(** ** Array.prototype.sort

    A stable sort by the comparator: insertion from the right, an element
    going before the first one it does not compare greater than. *)

Fixpoint insertBy (cmp : JsVal -> JsVal -> Z) (x : JsVal) (l : list JsVal)
  : list JsVal :=
  match l with
  | [] => [x]
  | y :: l' => if cmp x y <=? 0 then x :: y :: l' else y :: insertBy cmp x l'
  end.

Fixpoint sortBy (cmp : JsVal -> JsVal -> Z) (l : list JsVal) : list JsVal :=
  match l with
  | [] => []
  | x :: l' => insertBy cmp x (sortBy cmp l')
  end.

(** ** prepare *)

Definition elements (v : JsVal) : list JsVal :=
  match v with VArr l => l | _ => [] end.

Definition prepare (node : JsVal) : result JsVal :=
  let node := if isUint8Array node
              then VObj [("Data", node); ("Links", VArr [])] else node in
  let node := if (typeof node =? "string")%string
              then VObj [("Data", VBytes (textEncoder_encode node));
                         ("Links", VArr [])]
              else node in
  if negb (typeof node =? "object")%string || isArray node
  then Throw (TypeError "Invalid DAG-PB form")
  else
    match node with
    | VNull =>
        (* reading [node.Data] throws *)
        Throw (TypeError "Cannot read property 'Data'")
    | _ =>
        let pbn := [] in
        let pbn :=
          if truthy (get node "Data") then
            if (typeof (get node "Data") =? "string")%string
            then setProp "Data" (VBytes (textEncoder_encode (get node "Data"))) pbn
            else if isUint8Array (get node "Data")
                 then setProp "Data" (get node "Data") pbn
                 else pbn
          else pbn in
        if truthy (get node "Links") && isArray (get node "Links")
           && negb (List.length (elements (get node "Links")) =? 0)%nat
        then
          links <- mapM asLink (elements (get node "Links")) ;;
          Ok (VObj (setProp "Links" (VArr (sortBy linkComparator links)) pbn))
        else Ok (VObj (setProp "Links" (VArr []) pbn))
    end.

(** ** validate *)

(** [link.Hash.asCID !== link.Hash] is false only for a CID instance: its
    [asCID] property is the instance itself, a primitive or a
    [Uint8Array] has none, and a plain object (a finite tree here) does
    not contain itself. *)
Definition isCID (v : JsVal) : bool :=
  match v with VCid _ => true | _ => false end.

(** The numerator of [q % 1] (the remainder has the sign of [q]). *)
Definition mod1 (q : Q) : Z := Z.rem (Qnum q) (Zpos (Qden q)).

Definition isInteger (v : JsVal) : bool :=
  match v with VNum q => mod1 q =? 0 | _ => false end.

(** The body of the [for] loop of [validate] up to the ordering check. *)
Definition validateLink (link : JsVal) : result unit :=
  if negb (truthy link) || negb (typeof link =? "object")%string || isArray link
  then Throw (TypeError "Invalid DAG-PB form (bad link object)")
  else if negb (hasOnlyProperties link pbLinkProperties)
  then Throw (TypeError "Invalid DAG-PB form (extraneous properties on link object)")
  else if negb (truthy (get link "Hash"))
  then Throw (TypeError "Invalid DAG-PB form (link must have a Hash)")
  else if negb (isCID (get link "Hash"))
  then Throw (TypeError "Invalid DAG-PB form (link Hash must be a CID)")
  else if negb (isUndefined (get link "Name"))
          && negb (typeof (get link "Name") =? "string")%string
  then Throw (TypeError "Invalid DAG-PB form (link Name must be a string)")
  else if negb (isUndefined (get link "Tsize"))
          && (negb (typeof (get link "Tsize") =? "number")%string
              || negb (isInteger (get link "Tsize")))
  then Throw (TypeError "Invalid DAG-PB form (link Tsize must be an integer)")
  else Ok tt.

(** The [for] loop: [n] iterations are left, [i] is the index. *)
Fixpoint validateLinks (links : list JsVal) (n i : nat) : result unit :=
  match n with
  | O => Ok tt
  | S n' =>
      let link := nth i links VUndefined in
      _ <- validateLink link ;;
      if (0 <? i)%nat
         && (linkComparator link (nth (i - 1) links VUndefined) =? -1)
      then Throw (TypeError "Invalid DAG-PB form (links must be sorted by Name bytes)")
      else validateLinks links n' (S i)
  end.

Definition validate (node : JsVal) : result unit :=
  if negb (truthy node) || negb (typeof node =? "object")%string || isArray node
  then Throw (TypeError "Invalid DAG-PB form")
  else if negb (hasOnlyProperties node pbNodeProperties)
  then Throw (TypeError "Invalid DAG-PB form (extraneous properties)")
  else if negb (isUndefined (get node "Data"))
          && negb (isUint8Array (get node "Data"))
  then Throw (TypeError "Invalid DAG-PB form (Data must be a Uint8Array)")
  else if negb (isArray (get node "Links"))
  then Throw (TypeError "Invalid DAG-PB form (Links must be an array)")
  else validateLinks (elements (get node "Links"))
                     (List.length (elements (get node "Links"))) 0.

(** ** The wire format ([pb-encode.js], [pb-decode.js]) *)

Definition byte_of_N (n : N) : byte :=
  match Byte.of_N (n mod 256) with Some b => b | None => x00 end.

(** Modelled from the spec: the varint framing used by [encodeNode], which
    is not among the sources.  Seven bits per byte, low group first, the
    high bit set on every byte but the last. *)
Fixpoint encodeVarintFuel (fuel : nat) (n : N) : list byte :=
  match fuel with
  | O => []
  | S fuel' =>
      if (n <? 128)%N then [byte_of_N n]
      else byte_of_N (n mod 128 + 128) :: encodeVarintFuel fuel' (n / 128)
  end.

Definition encodeVarint (n : N) : list byte :=
  encodeVarintFuel (S (N.to_nat (N.size n))) n.

(** Modelled from the spec: reading a varint in [decodeNode]; [None] when
    the bytes end inside it. *)
Fixpoint decodeVarint (bs : list byte) : option (N * list byte) :=
  match bs with
  | [] => None
  | b :: rest =>
      let v := Byte.to_N b in
      if (v <? 128)%N then Some (v, rest)
      else match decodeVarint rest with
           | Some (hi, rest') => Some (v - 128 + 128 * hi, rest')%N
           | None => None
           end
  end.

(** Modelled from the spec: length-delimited framing (bytes, text and
    embedded messages). *)
Definition encodeBytes (b : list byte) : list byte :=
  encodeVarint (N.of_nat (List.length b)) ++ b.

Definition decodeBytes (bs : list byte) : option (list byte * list byte) :=
  match decodeVarint bs with
  | Some (len, rest) =>
      if (N.of_nat (List.length rest) <? len)%N then None
      else Some (firstn (N.to_nat len) rest, skipn (N.to_nat len) rest)
  | None => None
  end.

(** Modelled from the spec: the unsigned varint that carries [Tsize]
    (sections 4.4 and 6).  It holds a natural number: the integer a
    non-negative [Tsize] is, and nothing for a negative one. *)
Definition tsizeToWire (q : Q) : option N :=
  let t := Qnum q / Zpos (Qden q) in
  if t <? 0 then None else Some (Z.to_N t).

(** Modelled from the spec: the [Link] message of [encodeNode]: field 1
    [Hash] (bytes), field 2 [Name] (text), field 3 [Tsize] (unsigned
    varint), each written only when present.  A [Tsize] that no unsigned
    varint holds is refused with an error. *)
Definition encodeLink (link : JsVal) : result (list byte) :=
  tsize <- match get link "Tsize" with
           | VNum q =>
               match tsizeToWire q with
               | Some n => Ok (x18 :: encodeVarint n)
               | None => Throw (Error "Tsize cannot be negative")
               end
           | _ => Ok []
           end ;;
  Ok ((match get link "Hash" with
       | VBytes b => x0a :: encodeBytes b
       | _ => []
       end)
      ++ (match get link "Name" with
          | VStr s => x12 :: encodeBytes (list_byte_of_string s)
          | _ => []
          end)
      ++ tsize).

(** Modelled from the spec: one [Link] message, written as field 2 of
    the [Node] message. *)
Definition encodeLinkField (link : JsVal) : result (list byte) :=
  b <- encodeLink link ;; Ok (x12 :: encodeBytes b).

(** Modelled from the spec: [encodeNode] of [pb-encode.js], which is not
    among the sources: the [Link] messages (field 2) in order, then
    [Data] (field 1) when present. *)
Definition encodeNode (pbn : JsVal) : result (list byte) :=
  links <- mapM encodeLinkField (elements (get pbn "Links")) ;;
  Ok (List.concat links
      ++ (match get pbn "Data" with
          | VBytes d => x0a :: encodeBytes d
          | _ => []
          end)).

(** Modelled from the spec: an unknown field is passed over by its wire
    type. *)
Definition skipField (wireType : N) (bs : list byte) : option (list byte) :=
  match wireType with
  | 0%N => option_map snd (decodeVarint bs)
  | 1%N => if (List.length bs <? 8)%nat then None else Some (skipn 8 bs)
  | 2%N => option_map snd (decodeBytes bs)
  | 5%N => if (List.length bs <? 4)%nat then None else Some (skipn 4 bs)
  | _ => None
  end.

Definition malformed {A : Type} : result A :=
  Throw (Error "protobuf: malformed message").

(** Modelled from the spec: parsing a [Link] message in [decodeNode];
    a field is set only when it is on the wire. *)
Fixpoint decodeLinkFuel (fuel : nat) (bs : list byte)
  (link : list (string * JsVal)) : result (list (string * JsVal)) :=
  match bs with
  | [] => Ok link
  | _ :: _ =>
      match fuel with
      | O => malformed
      | S fuel' =>
          match decodeVarint bs with
          | None => malformed
          | Some (key, rest) =>
              let fieldNum := (key / 8)%N in
              let wireType := (key mod 8)%N in
              if (fieldNum =? 1)%N && (wireType =? 2)%N then
                match decodeBytes rest with
                | Some (b, rest') =>
                    decodeLinkFuel fuel' rest' (setProp "Hash" (VBytes b) link)
                | None => malformed
                end
              else if (fieldNum =? 2)%N && (wireType =? 2)%N then
                match decodeBytes rest with
                | Some (b, rest') =>
                    decodeLinkFuel fuel' rest'
                      (setProp "Name" (VStr (string_of_list_byte b)) link)
                | None => malformed
                end
              else if (fieldNum =? 3)%N && (wireType =? 0)%N then
                match decodeVarint rest with
                | Some (t, rest') =>
                    decodeLinkFuel fuel' rest'
                      (setProp "Tsize" (VNum (inject_Z (Z.of_N t))) link)
                | None => malformed
                end
              else
                match skipField wireType rest with
                | Some rest' => decodeLinkFuel fuel' rest' link
                | None => malformed
                end
          end
      end
  end.

Definition decodeLink (bs : list byte) : result JsVal :=
  link <- decodeLinkFuel (List.length bs) bs [] ;; Ok (VObj link).

(** Modelled from the spec: parsing the [Node] message in [decodeNode]:
    every [Link] message (field 2) is appended to [Links], [Data]
    (field 1) is set only when it is on the wire. *)
Fixpoint decodeNodeFuel (fuel : nat) (bs : list byte)
  (data : option (list byte)) (links : list JsVal)
  : result (option (list byte) * list JsVal) :=
  match bs with
  | [] => Ok (data, links)
  | _ :: _ =>
      match fuel with
      | O => malformed
      | S fuel' =>
          match decodeVarint bs with
          | None => malformed
          | Some (key, rest) =>
              let fieldNum := (key / 8)%N in
              let wireType := (key mod 8)%N in
              if (fieldNum =? 2)%N && (wireType =? 2)%N then
                match decodeBytes rest with
                | Some (b, rest') =>
                    l <- decodeLink b ;;
                    decodeNodeFuel fuel' rest' data (links ++ [l])
                | None => malformed
                end
              else if (fieldNum =? 1)%N && (wireType =? 2)%N then
                match decodeBytes rest with
                | Some (b, rest') => decodeNodeFuel fuel' rest' (Some b) links
                | None => malformed
                end
              else
                match skipField wireType rest with
                | Some rest' => decodeNodeFuel fuel' rest' data links
                | None => malformed
                end
          end
      end
  end.

(** Modelled from the spec: [decodeNode] of [pb-decode.js], which is not
    among the sources.  The record it returns always has [Links]. *)
Definition decodeNode (bytes : list byte) : result JsVal :=
  r <- decodeNodeFuel (List.length bytes) bytes None [] ;;
  let '(data, links) := r in
  Ok (VObj ((match data with
             | Some d => [("Data", VBytes d)]
             | None => []
             end) ++ [("Links", VArr links)])).

(** ** encode *)

(** [v.bytes], read on a link's [Hash]. *)
Definition bytesOf (v : JsVal) : JsVal :=
  match v with VCid c => VBytes (CID_bytes c) | _ => VUndefined end.

Definition encodeLinkObj (l : JsVal) : JsVal :=
  let link := [] in
  let link := if truthy (get l "Hash")
              then setProp "Hash" (bytesOf (get l "Hash")) link else link in
  let link := if negb (isUndefined (get l "Name"))
              then setProp "Name" (get l "Name") link else link in
  let link := if negb (isUndefined (get l "Tsize"))
              then setProp "Tsize" (get l "Tsize") link else link in
  VObj link.

Definition encode (node : JsVal) : result (list byte) :=
  _ <- validate node ;;
  let pbn := [] in
  let pbn := if truthy (get node "Links")
             then setProp "Links"
                    (VArr (map encodeLinkObj (elements (get node "Links")))) pbn
             else pbn in
  let pbn := if truthy (get node "Data")
             then setProp "Data" (get node "Data") pbn else pbn in
  encodeNode (VObj pbn).

(** ** decode *)

(** [CID.decode(v)] inside [try]: it throws on anything that is not the
    bytes of a content identifier, [undefined] included. *)
Definition tryDecodeCID (v : JsVal) : option CID :=
  match v with VBytes b => CID_decode b | _ => None end.

Definition decodeLinkObj (l : JsVal) : result JsVal :=
  let link := [] in
  match tryDecodeCID (get l "Hash") with
  | None => Throw (Error "Invalid Hash field found in link, expected CID")
  | Some c =>
      let link := setProp "Hash" (VCid c) link in
      let link := if negb (isUndefined (get l "Name"))
                  then setProp "Name" (get l "Name") link else link in
      let link := if negb (isUndefined (get l "Tsize"))
                  then setProp "Tsize" (get l "Tsize") link else link in
      Ok (VObj link)
  end.

Definition decode (bytes : list byte) : result JsVal :=
  pbn <- decodeNode bytes ;;
  let node := [] in
  let node := if truthy (get pbn "Data")
              then setProp "Data" (get pbn "Data") node else node in
  if truthy (get pbn "Links")
  then links <- mapM decodeLinkObj (elements (get pbn "Links")) ;;
       Ok (VObj (setProp "Links" (VArr links) node))
  else Ok (VObj node).

(** ** Notions the properties are stated with *)

(** The UTF-8 bytes of a link's [Name], an absent [Name] read as the
    empty string. *)
Definition utf8Name (l : JsVal) : list byte :=
  match get l "Name" with
  | VStr s => list_byte_of_string s
  | _ => []
  end.

(** The last line of [linkComparator]. *)
Definition sign (x y : N) : Z :=
  if (x <? y)%N then -1 else if (y <? x)%N then 1 else 0.

(** The checks [validate] makes on the node itself, before the loop. *)
Definition nodeChecks (node : JsVal) : bool :=
  negb (negb (truthy node) || negb (typeof node =? "object")%string || isArray node)
  && hasOnlyProperties node pbNodeProperties
  && negb (negb (isUndefined (get node "Data"))
           && negb (isUint8Array (get node "Data")))
  && isArray (get node "Links").

(** [Links[j]] compares as strictly before [Links[j - 1]]. *)
Definition decreasingAt (links : list JsVal) (j : nat) : Prop :=
  (0 < j < List.length links)%nat
  /\ linkComparator (nth j links VUndefined) (nth (j - 1) links VUndefined) = -1.

(** Every link passes the checks made on a link by itself. *)
Definition linksWellFormed (links : list JsVal) : Prop :=
  forall j, (j < List.length links)%nat ->
            validateLink (nth j links VUndefined) = Ok tt.

(** [a] may stand before [b]: the comparator does not put [a] after [b]. *)
Definition notAfter (a b : JsVal) : Prop := linkComparator a b <= 0.

(** What the wire keeps of a link record handed to [encodeNode]: the
    fields [decodeNode] gives back for it. *)
Definition wireLink (w : JsVal) : JsVal :=
  let link := [] in
  let link := match get w "Hash" with
              | VBytes b => setProp "Hash" (VBytes b) link
              | _ => link
              end in
  let link := match get w "Name" with
              | VStr s => setProp "Name" (VStr s) link
              | _ => link
              end in
  let link := match get w "Tsize" with
              | VNum q =>
                  match tsizeToWire q with
                  | Some n => setProp "Tsize" (VNum (inject_Z (Z.of_N n))) link
                  | None => link
                  end
              | _ => link
              end in
  VObj link.

(** The same field value: the same number, or else the same value. *)
Definition sameValue (v w : JsVal) : Prop :=
  match v, w with
  | VNum p, VNum q => Qeq p q
  | _, _ => v = w
  end.

(** The same Hash, Name and Tsize, in presence and in value. *)
Definition sameLink (l m : JsVal) : Prop :=
  get l "Hash" = get m "Hash"
  /\ get l "Name" = get m "Name"
  /\ sameValue (get l "Tsize") (get m "Tsize").

(** Structural equality of nodes: the same Data, in presence and in bytes,
    and the same links in the same order. *)
Definition structurallyEqual (n m : JsVal) : Prop :=
  get n "Data" = get m "Data"
  /\ Forall2 sameLink (elements (get n "Links")) (elements (get m "Links")).

(** The record [pbn] that the wire parser returned holds what [encode]
    handed to [encodeNode] for [node]: the Data, when [encode] passed one,
    and link by link, in order, the Hash bytes, the Name and the Tsize
    that [encode] put in the record of the link. *)
Definition wireGivesBack (pbn node : JsVal) : Prop :=
  get pbn "Data"
  = (if truthy (get node "Data") then get node "Data" else VUndefined)
  /\ Forall2 (fun w l => sameLink w (encodeLinkObj l))
       (elements (get pbn "Links")) (elements (get node "Links")).


(** The CID library reads back the bytes it writes. *)
Definition cidRoundTrips : Prop :=
  forall c : CID, CID_decode (CID_bytes c) = Some c.

(** A node with one link, of Hash [c] and Tsize the integer [t]. *)
Definition tsizeNode (c : CID) (t : Z) : JsVal :=
  VObj [("Links", VArr [VObj [("Hash", VCid c); ("Tsize", VNum (inject_Z t))]])].

(** A [Name] is absent or a string. *)
Definition nameTyped (l : JsVal) : Prop :=
  get l "Name" = VUndefined \/ exists s, get l "Name" = VStr s.

End DagPB.

Arguments get {cidlib} v k : simpl never.
Arguments decodeVarint bs : simpl never.
Arguments encodeVarint n : simpl never.
Arguments decodeBytes bs : simpl never.
Arguments encodeBytes b : simpl never.
Arguments tsizeToWire q : simpl never.
Arguments decodeLink {cidlib} bs : simpl never.
Arguments encodeLink {cidlib} link : simpl never.

(** ** A small content-identifier library to run the module on

    The binary form of a content identifier is its version byte, 1,
    followed by the rest (codec and multihash), which is all that is
    kept of it here; text is read as its binary form written out. *)

Module ToyCID.

Definition decodeBinary (b : list byte) : option (list byte) :=
  match b with x01 :: rest => Some rest | _ => None end.

#[export] Instance lib : ContentIdentifier := {|
  CID := list byte;
  CID_parse := fun s => decodeBinary (list_byte_of_string s);
  CID_decode := decodeBinary;
  CID_bytes := fun c => x01 :: c
|}.

Definition cidA : @CID lib := [x70; x00].
Definition cidB : @CID lib := [x70; x01].

(** Sample links and nodes. *)
Definition linkA : JsVal := VObj [("Hash", VCid cidA); ("Name", VStr "a")].
Definition linkAB : JsVal := VObj [("Hash", VCid cidB); ("Name", VStr "ab")].
Definition linkB : JsVal := VObj [("Hash", VCid cidB); ("Name", VStr "b")].
Definition linkNoHash : JsVal := VObj [("Name", VStr "a")].
Definition nodeBA : JsVal := VObj [("Links", VArr [linkB; linkA])].
Definition nodeAB : JsVal := VObj [("Data", VBytes [x61]); ("Links", VArr [linkA; linkB])].
Definition nodeNoHash : JsVal := VObj [("Links", VArr [linkNoHash])].

(** Wire bytes: one link whose Hash bytes are empty (not a content
    identifier), and one link with no field at all. *)
Definition nodeRT : JsVal :=
  VObj [("Data", VBytes [x61; x62]);
        ("Links", VArr [VObj [("Hash", VCid cidA); ("Name", VStr "a");
                              ("Tsize", VNum (inject_Z 300))];
                        linkB])].
(** The bytes [encode] makes of [nodeRT], and the record the wire parser
    reads from them. *)
Definition bytesRT : list byte :=
  Eval vm_compute in
    match encode nodeRT with Ok b => b | Throw _ => [] end.
Definition pbnRT : JsVal :=
  Eval vm_compute in
    match decodeNode bytesRT with Ok pbn => pbn | Throw _ => VUndefined end.
Definition inputEmptyText : JsVal := VObj [("Data", VStr "")].
Definition inputBA : JsVal :=
  VObj [("Links", VArr [VObj [("Hash", VBytes (x01 :: cidB)); ("Name", VStr "b")];
                        linkA])].

Definition wireBadHash : list byte := [x12; x02; x0a; x00].
Definition wireNoHash : list byte := [x12; x00].

End ToyCID.


(** ** Further notions the properties are stated with *)

Section FurtherNotions.

Context {cidlib : ContentIdentifier}.

(** Byte-wise lexicographic comparison of two byte sequences, a proper
    prefix coming first. *)
Fixpoint lexCompare (a b : list byte) : Z :=
  match a, b with
  | [], [] => 0
  | [], _ :: _ => -1
  | _ :: _, [] => 1
  | x :: a', y :: b' =>
      if (Byte.to_N x =? Byte.to_N y)%N then lexCompare a' b'
      else sign (Byte.to_N x) (Byte.to_N y)
  end.

(** The form of a link that [validate] asks for: a plain object with no
    property but Hash, Name and Tsize, whose Hash is a content identifier,
    whose Name is absent or a string and whose Tsize is absent or an
    integer. *)
Definition validLink (l : JsVal) : Prop :=
  (exists props, l = VObj props)
  /\ (forall k, In k (keys l) -> In k pbLinkProperties)
  /\ (exists c, get l "Hash" = VCid c)
  /\ nameTyped l
  /\ (get l "Tsize" = VUndefined
      \/ exists q, get l "Tsize" = VNum q /\ Z.rem (Qnum q) (Zpos (Qden q)) = 0).

(** The form of a node that [validate] asks for. *)
Definition validNode (node : JsVal) : Prop :=
  (exists props, node = VObj props)
  /\ (forall k, In k (keys node) -> In k pbNodeProperties)
  /\ (get node "Data" = VUndefined \/ exists d, get node "Data" = VBytes d)
  /\ exists links,
       get node "Links" = VArr links
       /\ (forall l, In l links -> validLink l)
       /\ (forall j, (0 < j < List.length links)%nat ->
             linkComparator (nth j links VUndefined)
                            (nth (j - 1) links VUndefined) <> -1).

(** The same three fields, value for value. *)
Definition sameFields (l m : JsVal) : Prop :=
  get l "Hash" = get m "Hash"
  /\ get l "Name" = get m "Name"
  /\ get l "Tsize" = get m "Tsize".

(** The links [asLink] builds: Hash, then Name if any, then Tsize if
    any. *)
Definition preparedLink (l : JsVal) : Prop :=
  exists c,
    l = VObj [("Hash", VCid c)]
    \/ (exists s, l = VObj [("Hash", VCid c); ("Name", VStr s)])
    \/ (exists q, l = VObj [("Hash", VCid c); ("Tsize", VNum q)])
    \/ (exists s q, l = VObj [("Hash", VCid c); ("Name", VStr s); ("Tsize", VNum q)]).

(** A Tsize that is absent or an integer. *)
Definition tsizeIntegral (l : JsVal) : Prop :=
  get l "Tsize" = VUndefined \/ isInteger (get l "Tsize") = true.

(** What [prepare] makes of the Data of a record. *)
Definition preparedData (data : JsVal) : JsVal :=
  match data with
  | VStr s => if (s =? "")%string then VUndefined else VBytes (list_byte_of_string s)
  | VBytes b => VBytes b
  | _ => VUndefined
  end.

End FurtherNotions.

(** * The older variant of the module ([create])

    The second source file builds the same five functions inside
    [create(multiformats)], on top of the [protons] library.  What comes
    from outside is a parameter here: [CID.from] and [new CID] of the
    [multiformats] argument, the encoder and decoder of [protons], and the
    two conversions of JavaScript that the code applies to values of any
    type. *)

Module Legacy.

Section Create.

Context {cidlib : ContentIdentifier}.

(** [CID.from(v)]; [None] when it throws. *)
Variable CID_from : JsVal -> option CID.

(** [new CID(v)]; it may throw. *)
Variable CID_new : JsVal -> result CID.

(** [bytes.coerce(proto.PBNode.encode(pbn))]. *)
Variable protoEncode : JsVal -> result (list byte).

(** [proto.PBNode.decode(bytes)], as the Data and the array of Links of
    the record it returns. *)
Variable protoDecode : list byte -> result (JsVal * list JsVal).

(** ToString, for a value that is neither a string nor [undefined]. *)
Variable ToString : JsVal -> string.

(** [v > 0], for a value that is not a number, a boolean, [null] or
    [undefined]. *)
Variable gtZero : JsVal -> bool.

(** [textEncoder.encode(v)] on a value of any type; [undefined] is the
    default argument, the empty string. *)
Definition encodeText (v : JsVal) : list byte :=
  match v with
  | VStr s => list_byte_of_string s
  | VUndefined => []
  | _ => list_byte_of_string (ToString v)
  end.

(** [linkComparator] of the older variant: the Name is encoded whatever
    it is.  The early [a === b] return is left out as above. *)
Definition linkComparator (a b : JsVal) : Z :=
  let abuf := encodeText (get a "Name") in
  let bbuf := encodeText (get b "Name") in
  let x := N.of_nat (List.length abuf) in
  let y := N.of_nat (List.length bbuf) in
  let '(x, y) := scan abuf bbuf (Nat.min (List.length abuf) (List.length bbuf)) 0 x y in
  if (x <? y)%N then -1 else if (y <? x)%N then 1 else 0.

(** [v.asCID]: a CID instance holds itself there. *)
Definition asCIDOf (v : JsVal) : JsVal :=
  match v with VCid c => VCid c | _ => get v "asCID" end.

(** [v || d] *)
Definition orElse (v d : JsVal) : JsVal := if truthy v then v else d.

Definition asLink (link : JsVal) : result JsVal :=
  match link with
  | VUndefined | VNull =>
      (* reading [link.asCID] throws *)
      Throw (TypeError "Cannot read property 'asCID'")
  | _ =>
      if (typeof (asCIDOf link) =? "object")%string
      then Ok (VObj [("Hash", match CID_asCID link with
                              | Some c => VCid c
                              | None => VNull
                              end);
                     ("Name", VStr ""); ("Tsize", VNum 0)])
      else
        match CID_from (get link "Hash") with
        | None => Throw (TypeError "Invalid DAG-PB form (bad Hash/CID)")
        | Some cid =>
            Ok (VObj [("Hash", VCid cid);
                      ("Name", orElse (get link "Name") (VStr ""));
                      ("Tsize", orElse (get link "Tsize") (VNum 0))])
        end
  end.

(** [v > 0] *)
Definition jsGtZero (v : JsVal) : bool :=
  match v with
  | VNum q => 0 <? Qnum q
  | VBool b => b
  | VUndefined | VNull => false
  | _ => gtZero v
  end.

(** [v.length > 0], for a value that is not [null] or [undefined]. *)
Definition hasPositiveLength (v : JsVal) : bool :=
  match v with
  | VArr l => negb (List.length l =? 0)%nat
  | VBytes b => negb (List.length b =? 0)%nat
  | VStr s => negb (s =? "")%string
  | VObj props => jsGtZero (lookup "length" props)
  | _ => false
  end.

(** [node.Links.map(asLink)] then [.sort(linkComparator)].  An array is
    mapped and sorted; a [Uint8Array] is mapped to a [Uint8Array], each
    object [asLink] returns being stored as 0; nothing else has a
    [map]. *)
Definition mapAndSort (links : JsVal) : result JsVal :=
  match links with
  | VArr l => ls <- mapM asLink l ;; Ok (VArr (sortBy linkComparator ls))
  | VBytes b =>
      _ <- mapM asLink (map (fun x => VNum (inject_Z (Z.of_N (Byte.to_N x)))) b) ;;
      Ok (VBytes (map (fun _ => x00) b))
  | _ => Throw (TypeError "node.Links.map is not a function")
  end.

Definition prepare (node : JsVal) : result JsVal :=
  let node := if isUint8Array node || (typeof node =? "string")%string
              then VObj [("Data", node)] else node in
  if negb (typeof node =? "object")%string || isArray node
  then Throw (TypeError "Invalid DAG-PB form")
  else
    match node with
    | VNull =>
        (* reading [node.Data] throws *)
        Throw (TypeError "Cannot read property 'Data'")
    | _ =>
        let pbn := [] in
        let pbn :=
          if truthy (get node "Data") then
            if (typeof (get node "Data") =? "string")%string
            then setProp "Data" (VBytes (textEncoder_encode (get node "Data"))) pbn
            else if isUint8Array (get node "Data")
                    && hasPositiveLength (get node "Data")
                 then
                   (* zero-length data must be null, can't be Uint8Array(0) *)
                   setProp "Data" (get node "Data") pbn
                 else pbn
          else pbn in
        if truthy (get node "Links") && hasPositiveLength (get node "Links")
        then links <- mapAndSort (get node "Links") ;;
             Ok (VObj (setProp "Links" links pbn))
        else Ok (VObj (setProp "Links" (VArr []) pbn))
    end.

(** The body of the [for] loop of [validate] up to the ordering check. *)
Definition validateLink (link : JsVal) : result unit :=
  if negb (truthy link) || negb (typeof link =? "object")%string || isArray link
  then Throw (TypeError "Invalid DAG-PB form (bad link object)")
  else if negb (hasOnlyProperties link pbLinkProperties)
  then Throw (TypeError "Invalid DAG-PB form (extraneous properties on link object)")
  else if truthy (get link "Hash") && negb (isCID (get link "Hash"))
  then Throw (TypeError "Invalid DAG-PB form (link Hash must be a CID)")
  else if negb (typeof (get link "Name") =? "string")%string
  then Throw (TypeError "Invalid DAG-PB form (link Name must be a string)")
  else if negb (typeof (get link "Tsize") =? "number")%string
          || negb (isInteger (get link "Tsize"))
  then Throw (TypeError "Invalid DAG-PB form (link Tsize must be an integer)")
  else Ok tt.

Fixpoint validateLinks (links : list JsVal) (n i : nat) : result unit :=
  match n with
  | O => Ok tt
  | S n' =>
      let link := nth i links VUndefined in
      _ <- validateLink link ;;
      if (0 <? i)%nat
         && (linkComparator link (nth (i - 1) links VUndefined) =? -1)
      then Throw (TypeError "Invalid DAG-PB form (links must be sort by Name bytes)")
      else validateLinks links n' (S i)
  end.

Definition validate (node : JsVal) : result unit :=
  if negb (truthy node) || negb (typeof node =? "object")%string || isArray node
  then Throw (TypeError "Invalid DAG-PB form")
  else if negb (hasOnlyProperties node pbNodeProperties)
  then Throw (TypeError "Invalid DAG-PB form (extraneous properties)")
  else if negb (isArray (get node "Links"))
  then Throw (TypeError "Invalid DAG-PB form (Links must be an array)")
  else if truthy (get node "Data") && negb (isUint8Array (get node "Data"))
  then Throw (TypeError "Invalid DAG-PB form (Data must be a Uint8Array)")
  else validateLinks (elements (get node "Links"))
                     (List.length (elements (get node "Links"))) 0.

(** [v.bytes], read on a link's [Hash]: reading it on [undefined] or
    [null] throws. *)
Definition bytesProp (v : JsVal) : result JsVal :=
  match v with
  | VUndefined | VNull => Throw (TypeError "Cannot read property 'bytes'")
  | VCid c => Ok (VBytes (CID_bytes c))
  | _ => Ok VUndefined
  end.

Definition encode (node : JsVal) : result (list byte) :=
  _ <- validate node ;;
  links <- mapM (fun l =>
                   h <- bytesProp (get l "Hash") ;;
                   Ok (VObj [("Hash", h); ("Name", get l "Name");
                             ("Tsize", get l "Tsize")]))
                (elements (get node "Links")) ;;
  let pbn := [("Links", VArr links)] in
  let pbn := if truthy (get node "Data")
             then setProp "Data" (get node "Data") pbn else pbn in
  protoEncode (VObj pbn).

Definition decode (bytes : list byte) : result JsVal :=
  pbn <- protoDecode bytes ;;
  let '(data, pbLinks) := pbn in
  links <- mapM (fun link =>
                   cid <- CID_new (get link "Hash") ;;
                   Ok (VObj [("Name", get link "Name"); ("Tsize", get link "Tsize");
                             ("Hash", VCid cid)]))
                pbLinks ;;
  Ok (VObj [("Links", VArr links);
            ("Data", match data with
                     | VUndefined | VNull => VBytes []
                     | _ => data
                     end)]).

End Create.

End Legacy.

(** ** More sample values *)

Module FurtherSamples.

Import ToyCID.

Definition linkA2 : JsVal := VObj [("Name", VStr "a"); ("Hash", VCid cidB)].
Definition linkFull : JsVal :=
  VObj [("Hash", VCid cidA); ("Name", VStr "a"); ("Tsize", VNum (inject_Z 7))].
Definition linkLoose : JsVal :=
  VObj [("Hash", VBytes (x01 :: cidA)); ("Name", VNum (inject_Z 5));
        ("Tsize", VNum (3 # 2)); ("Other", VBool true)].
Definition nodeExtra : JsVal :=
  VObj [("Data", VBytes [x61]); ("Links", VArr []); ("Extra", VNum (inject_Z 1))].
Definition nodeSecondBad : JsVal := VObj [("Links", VArr [linkA; linkNoHash])].
Definition nodeABswapped : JsVal :=
  VObj [("Links", VArr [VObj [("Name", VStr "a"); ("Hash", VCid cidA)]; linkB]);
        ("Data", VBytes [x61])].
Definition nodeFull : JsVal := VObj [("Links", VArr [linkFull])].
Definition nodeHashOnly : JsVal := VObj [("Links", VArr [VObj [("Hash", VCid cidA)]])].
Definition nodeNoHashLegacy : JsVal :=
  VObj [("Links", VArr [VObj [("Name", VStr "a"); ("Tsize", VNum (inject_Z 0))]])].

(** Wire bytes of two links named "b" and "a", in that order. *)
Definition wireBA : list byte :=
  [x12; x08; x0a; x03; x01; x70; x01; x12; x01; x62;
   x12; x08; x0a; x03; x01; x70; x00; x12; x01; x61].

(** Stand-ins for what the older variant takes from outside. *)
Definition toyFrom (v : JsVal) : option CID :=
  match v with
  | VStr s => CID_parse s
  | VBytes b => CID_decode b
  | VCid c => Some c
  | _ => None
  end.

Definition toyNew (v : JsVal) : result CID :=
  match v with
  | VBytes b => match CID_decode b with
                | Some c => Ok c
                | None => Throw (Error "not a CID")
                end
  | _ => Throw (Error "not a CID")
  end.

Definition toyProtoEncode (pbn : JsVal) : result (list byte) := encodeNode pbn.

Definition toyProtoDecode (bytes : list byte) : result (JsVal * list JsVal) :=
  pbn <- decodeNode bytes ;; Ok (get pbn "Data", elements (get pbn "Links")).

Definition toyToString (v : JsVal) : string := "[object Object]".

Definition toyGtZero (v : JsVal) : bool := false.

End FurtherSamples.

(** * Properties *)

Section Properties.

Context {cidlib : ContentIdentifier}.

(** ** The comparator *)

Lemma to_N_inj (x y : byte) : Byte.to_N x = Byte.to_N y -> x = y.
Proof.
  intros H.
  assert (E : Some x = Some y)
    by (rewrite <- (Byte.of_to_N x), <- (Byte.of_to_N y), H; reflexivity).
  now inversion E.
Qed.

Lemma scan_cons (a b : byte) (abuf bbuf : list byte) (n i : nat) (x y : N) :
  scan (a :: abuf) (b :: bbuf) n (S i) x y = scan abuf bbuf n i x y.
Proof.
  revert i; induction n as [|n IH]; intros i; simpl; [reflexivity|].
  unfold byteAt at 1 2 3 4 5 6; simpl nth. fold (byteAt abuf i) (byteAt bbuf i).
  now rewrite IH.
Qed.

Lemma scan_differ (p : list byte) (x y : byte) (ra rb : list byte) (n : nat) (X Y : N) :
  x <> y -> (List.length p < n)%nat ->
  scan (p ++ x :: ra) (p ++ y :: rb) n 0 X Y = (Byte.to_N x, Byte.to_N y).
Proof.
  intros Hxy; revert n; induction p as [|c p IH]; intros n Hn.
  - destruct n as [|n]; [simpl in Hn; lia|]. simpl. unfold byteAt; simpl.
    destruct (N.eqb_spec (Byte.to_N x) (Byte.to_N y)) as [E|E]; simpl; [|reflexivity].
    now apply to_N_inj in E.
  - destruct n as [|n]; [simpl in Hn; lia|]. simpl in Hn.
    simpl. unfold byteAt at 1 2; simpl nth. rewrite N.eqb_refl; simpl.
    rewrite scan_cons. apply IH; lia.
Qed.

Lemma scan_prefix (abuf r : list byte) (n : nat) (X Y : N) :
  (n <= List.length abuf)%nat ->
  scan abuf (abuf ++ r) n 0 X Y = (X, Y) /\ scan (abuf ++ r) abuf n 0 X Y = (X, Y).
Proof.
  revert n; induction abuf as [|c abuf IH]; intros n Hn.
  - destruct n; [split; reflexivity | simpl in Hn; lia].
  - destruct n as [|n]; [split; reflexivity|]. simpl in Hn.
    simpl. unfold byteAt at 1 2 5 6; simpl nth. rewrite N.eqb_refl; simpl.
    rewrite !scan_cons. apply IH; lia.
Qed.

Lemma nameBuf_utf8 (l : JsVal) : nameTyped l -> nameBuf l = utf8Name l.
Proof.
  unfold nameTyped, nameBuf, utf8Name; intros [H | [s H]]; rewrite H; simpl.
  - reflexivity.
  - destruct s; reflexivity.
Qed.

Lemma linkComparator_unfold (a b : JsVal) :
  linkComparator a b =
  let '(x, y) := scan (nameBuf a) (nameBuf b)
                   (Nat.min (List.length (nameBuf a)) (List.length (nameBuf b))) 0
                   (N.of_nat (List.length (nameBuf a)))
                   (N.of_nat (List.length (nameBuf b))) in
  sign x y.
Proof. reflexivity. Qed.

Lemma linkComparator_differ (a b : JsVal) (p : list byte) (x y : byte) (ra rb : list byte) :
  nameBuf a = p ++ x :: ra -> nameBuf b = p ++ y :: rb -> x <> y ->
  linkComparator a b = if (Byte.to_N x <? Byte.to_N y)%N then -1 else 1.
Proof.
  intros Ea Eb Hxy. rewrite linkComparator_unfold, Ea, Eb.
  rewrite scan_differ; [|assumption|rewrite !length_app; simpl; lia].
  unfold sign. destruct (N.ltb_spec (Byte.to_N x) (Byte.to_N y)); [reflexivity|].
  destruct (N.ltb_spec (Byte.to_N y) (Byte.to_N x)); [reflexivity|].
  exfalso; apply Hxy, to_N_inj; lia.
Qed.

Lemma linkComparator_prefix_l (a b : JsVal) (r : list byte) :
  nameBuf b = nameBuf a ++ r ->
  linkComparator a b = match r with [] => 0 | _ :: _ => -1 end.
Proof.
  intros Eb. rewrite linkComparator_unfold, Eb.
  destruct (scan_prefix (nameBuf a) r
              (n := Nat.min (List.length (nameBuf a)) (List.length (nameBuf a ++ r)))
              (N.of_nat (List.length (nameBuf a)))
              (N.of_nat (List.length (nameBuf a ++ r)))) as [E _]; [lia|].
  rewrite E. unfold sign. rewrite length_app.
  destruct r as [|c r]; simpl List.length.
  - rewrite Nat.add_0_r, N.ltb_irrefl. reflexivity.
  - destruct (N.ltb_spec (N.of_nat (List.length (nameBuf a)))
                (N.of_nat (List.length (nameBuf a) + S (List.length r)))); [reflexivity|lia].
Qed.

Lemma linkComparator_prefix_r (a b : JsVal) (r : list byte) :
  nameBuf a = nameBuf b ++ r ->
  linkComparator a b = match r with [] => 0 | _ :: _ => 1 end.
Proof.
  intros Ea. rewrite linkComparator_unfold, Ea.
  destruct (scan_prefix (nameBuf b) r
              (n := Nat.min (List.length (nameBuf b ++ r)) (List.length (nameBuf b)))
              (N.of_nat (List.length (nameBuf b ++ r)))
              (N.of_nat (List.length (nameBuf b)))) as [_ E]; [lia|].
  rewrite E. unfold sign. rewrite length_app.
  destruct r as [|c r]; simpl List.length.
  - rewrite Nat.add_0_r, N.ltb_irrefl. reflexivity.
  - destruct (N.ltb_spec (N.of_nat (List.length (nameBuf b) + S (List.length r)))
                (N.of_nat (List.length (nameBuf b)))); [lia|].
    destruct (N.ltb_spec (N.of_nat (List.length (nameBuf b)))
                (N.of_nat (List.length (nameBuf b) + S (List.length r)))); [reflexivity|lia].
Qed.

Lemma linkComparator_same (a b : JsVal) :
  get a "Name" = get b "Name" -> linkComparator a b = 0.
Proof.
  intros E. apply (@linkComparator_prefix_l a b []).
  unfold nameBuf. rewrite E, app_nil_r. reflexivity.
Qed.

Lemma sign_range (x y : N) : sign x y = -1 \/ sign x y = 0 \/ sign x y = 1.
Proof.
  unfold sign. destruct (x <? y)%N; [now left|].
  destruct (y <? x)%N; [now right; right | now right; left].
Qed.

Lemma linkComparator_range (a b : JsVal) :
  linkComparator a b = -1 \/ linkComparator a b = 0 \/ linkComparator a b = 1.
Proof.
  rewrite linkComparator_unfold.
  destruct (scan _ _ _ _ _ _) as [x y]. apply sign_range.
Qed.

(** C3. [linkComparator a b] is -1, 0 or +1 by the byte-wise lexicographic
    order of the UTF-8 bytes of the two Names (an absent Name counting as
    the empty string): at the first byte that differs the lower byte sorts
    first; with no differing byte in the shared prefix the shorter sorts
    first; equal bytes, and so links that differ only in Hash or Tsize,
    compare equal; "a" sorts before "ab". *)
Theorem linkComparator_bytewise_lexicographic (a b : JsVal) :
  nameTyped a -> nameTyped b ->
  (linkComparator a b = -1 \/ linkComparator a b = 0 \/ linkComparator a b = 1)
  /\ (forall p x y ra rb,
        utf8Name a = p ++ x :: ra -> utf8Name b = p ++ y :: rb -> x <> y ->
        linkComparator a b = if (Byte.to_N x <? Byte.to_N y)%N then -1 else 1)
  /\ (forall r, utf8Name b = utf8Name a ++ r ->
        linkComparator a b = match r with [] => 0 | _ :: _ => -1 end)
  /\ (forall r, utf8Name a = utf8Name b ++ r ->
        linkComparator a b = match r with [] => 0 | _ :: _ => 1 end)
  /\ (get a "Name" = get b "Name" -> linkComparator a b = 0)
  /\ (get a "Name" = VStr "a" -> get b "Name" = VStr "ab" ->
        linkComparator a b = -1).
Proof.
  intros Ha Hb.
  pose proof (nameBuf_utf8 Ha) as Ea. pose proof (nameBuf_utf8 Hb) as Eb.
  repeat split.
  - apply linkComparator_range.
  - intros p x y ra rb E1 E2. rewrite <- Ea in E1. rewrite <- Eb in E2.
    now apply (@linkComparator_differ a b p x y ra rb).
  - intros r E. rewrite <- Ea, <- Eb in E. now apply linkComparator_prefix_l.
  - intros r E. rewrite <- Ea, <- Eb in E. now apply linkComparator_prefix_r.
  - apply linkComparator_same.
  - intros Na Nb. apply (@linkComparator_prefix_l a b ["b"%byte]).
    unfold nameBuf. rewrite Na, Nb. reflexivity.
Qed.

(** ** The validator *)

Lemma validateLink_error (link : JsVal) (e : exn) :
  validateLink link = Throw e -> exists msg, e = TypeError msg.
Proof.
  unfold validateLink; intros H.
  repeat match type of H with
         | (if ?c then _ else _) = _ => destruct c
         end; inversion H; eauto.
Qed.

Lemma validateLinks_error (links : list JsVal) (n i : nat) (e : exn) :
  validateLinks links n i = Throw e -> exists msg, e = TypeError msg.
Proof.
  revert i; induction n as [|n IH]; intros i; simpl; [discriminate|].
  destruct (validateLink (nth i links VUndefined)) as [[]|e'] eqn:E; simpl.
  - destruct (_ && _); [intros H; inversion H; eauto | apply IH].
  - intros H; inversion H; subst. eapply validateLink_error; eassumption.
Qed.

Lemma validate_nodeChecks (node : JsVal) :
  validate node =
  if nodeChecks node
  then validateLinks (elements (get node "Links"))
                     (List.length (elements (get node "Links"))) 0
  else validate node.
Proof.
  unfold nodeChecks, validate.
  destruct (negb (truthy node) || _ || isArray node); simpl; [reflexivity|].
  destruct (hasOnlyProperties node pbNodeProperties); simpl; [|reflexivity].
  destruct (negb (isUndefined (get node "Data")) && _); simpl; [reflexivity|].
  destruct (isArray (get node "Links")); reflexivity.
Qed.

Lemma validate_error (node : JsVal) (e : exn) :
  validate node = Throw e -> exists msg, e = TypeError msg.
Proof.
  unfold validate; intros H.
  repeat match type of H with
         | (if ?c then _ else _) = _ => destruct c
         end; try (inversion H; eauto; fail).
  eapply validateLinks_error; eassumption.
Qed.

Lemma validate_not_ok (node : JsVal) :
  validate node <> Ok tt -> isFormError (validate node).
Proof.
  intros H. destruct (validate node) as [[]|e] eqn:E; [congruence|].
  destruct (validate_error _ E) as [msg ->]. now exists msg.
Qed.

Lemma nodeChecks_false (node : JsVal) :
  nodeChecks node = false -> validate node <> Ok tt.
Proof.
  unfold nodeChecks, validate.
  destruct (negb (truthy node) || _ || isArray node); simpl; [discriminate|].
  destruct (hasOnlyProperties node pbNodeProperties); simpl; [|discriminate].
  destruct (negb (isUndefined (get node "Data")) && _); simpl; [discriminate|].
  destruct (isArray (get node "Links")); discriminate.
Qed.

Lemma validateLinks_ok (links : list JsVal) (n i : nat) :
  validateLinks links n i = Ok tt <->
  forall j, (i <= j < i + n)%nat ->
    validateLink (nth j links VUndefined) = Ok tt
    /\ ((0 < j)%nat ->
        linkComparator (nth j links VUndefined) (nth (j - 1) links VUndefined) <> -1).
Proof.
  revert i; induction n as [|n IH]; intros i; simpl.
  - split; [intros _ j Hj; lia | reflexivity].
  - destruct (validateLink (nth i links VUndefined)) as [[]|e] eqn:E; simpl.
    + destruct (Nat.ltb_spec 0 i) as [Hi|Hi]; simpl.
      * destruct (Z.eqb_spec (linkComparator (nth i links VUndefined)
                                (nth (i - 1) links VUndefined)) (-1)) as [C|C].
        -- split; [discriminate|]. intros H.
           destruct (H i ltac:(lia)) as [_ H']. now elim (H' Hi).
        -- rewrite IH. split; intros H j Hj.
           ++ destruct (Nat.eq_dec j i) as [->|Hne]; [now split|]. apply H; lia.
           ++ apply H; lia.
      * rewrite IH. split; intros H j Hj.
        -- destruct (Nat.eq_dec j i) as [->|Hne]; [split; [assumption|lia]|]. apply H; lia.
        -- apply H; lia.
    + split; [discriminate|]. intros H.
      destruct (H i ltac:(lia)) as [H' _]. congruence.
Qed.

Lemma validate_ok (node : JsVal) :
  validate node = Ok tt <->
  nodeChecks node = true
  /\ linksWellFormed (elements (get node "Links"))
  /\ ~ exists j, decreasingAt (elements (get node "Links")) j.
Proof.
  destruct (nodeChecks node) eqn:N.
  - rewrite validate_nodeChecks, N, validateLinks_ok.
    unfold linksWellFormed, decreasingAt. split.
    + intros H. split; [reflexivity|]. split.
      * intros j Hj. apply H; lia.
      * intros [j [Hj C]]. destruct (H j ltac:(lia)) as [_ H']. apply H'; [lia|assumption].
    + intros [_ [W D]] j Hj. split; [apply W; lia|].
      intros Hpos C. apply D. exists j. split; [lia|assumption].
  - split; [intros H; now elim (nodeChecks_false _ N) | intros [H _]; discriminate].
Qed.

Lemma validateLinks_throw (links : list JsVal) (n i : nat) (e : exn) :
  validateLinks links n i = Throw e ->
  (exists j, (i <= j < i + n)%nat /\ validateLink (nth j links VUndefined) <> Ok tt)
  \/ (exists j, (i <= j < i + n)%nat /\ (0 < j)%nat
        /\ linkComparator (nth j links VUndefined) (nth (j - 1) links VUndefined) = -1).
Proof.
  revert i; induction n as [|n IH]; intros i; simpl; [discriminate|].
  destruct (validateLink (nth i links VUndefined)) as [[]|e'] eqn:E; simpl.
  - destruct (Nat.ltb_spec 0 i) as [Hi|Hi]; simpl.
    + destruct (Z.eqb_spec (linkComparator (nth i links VUndefined)
                              (nth (i - 1) links VUndefined)) (-1)) as [C|C].
      * intros _. right. exists i. repeat split; try lia; assumption.
      * intros H. destruct (IH _ H) as [[j [Hj W]]|[j [Hj W]]];
          [left|right]; exists j; (split; [lia|assumption]).
    + intros H. destruct (IH _ H) as [[j [Hj W]]|[j [Hj W]]];
        [left|right]; exists j; (split; [lia|assumption]).
  - intros _. left. exists i. split; [lia|congruence].
Qed.

Lemma encode_validate_error (node : JsVal) :
  isFormError (validate node) -> isFormError (encode node).
Proof.
  intros [msg E]. exists msg. unfold encode. rewrite E. reflexivity.
Qed.

Lemma linkComparator_a_b (la lb : JsVal) :
  get la "Name" = VStr "a" -> get lb "Name" = VStr "b" ->
  linkComparator la lb = -1 /\ linkComparator lb la = 1.
Proof.
  intros Na Nb. split.
  - apply (@linkComparator_differ la lb [] "a"%byte "b"%byte [] []);
      [unfold nameBuf; rewrite Na | unfold nameBuf; rewrite Nb | discriminate]; reflexivity.
  - apply (@linkComparator_differ lb la [] "b"%byte "a"%byte [] []);
      [unfold nameBuf; rewrite Nb | unfold nameBuf; rewrite Na | discriminate]; reflexivity.
Qed.

(** C2. A node whose Links are a link named "b" followed by a link named
    "a" is rejected with a form error by [validate] and by [encode]; the
    same two links in the order "a", "b" have no strictly decreasing
    adjacent pair (and pass [validate] when nothing else is wrong with
    them); in general, among nodes with nothing else wrong, [validate]
    rejects exactly those with some adjacent pair that compares as
    strictly decreasing. *)
Theorem canonical_order_enforced (lb la : JsVal) :
  get lb "Name" = VStr "b" -> get la "Name" = VStr "a" ->
  (forall node, get node "Links" = VArr [lb; la] ->
     isFormError (validate node) /\ isFormError (encode node))
  /\ (~ exists j, decreasingAt [la; lb] j)
  /\ (forall node, get node "Links" = VArr [la; lb] ->
        nodeChecks node = true ->
        validateLink la = Ok tt -> validateLink lb = Ok tt ->
        validate node = Ok tt)
  /\ (forall node,
        nodeChecks node = true ->
        linksWellFormed (elements (get node "Links")) ->
        (isFormError (validate node)
         <-> exists j, decreasingAt (elements (get node "Links")) j)
        /\ (validate node = Ok tt
            <-> ~ exists j, decreasingAt (elements (get node "Links")) j)).
Proof.
  intros Nb Na. destruct (linkComparator_a_b _ _ Na Nb) as [Cab Cba].
  assert (Hno : ~ exists j, decreasingAt [la; lb] j).
  { intros [j [[Hj1 Hj2] C]]. simpl in Hj2.
    assert (j = 1)%nat as -> by lia. simpl in C. congruence. }
  split; [|split; [exact Hno|split]].
  - intros node HL.
    assert (V : isFormError (validate node)).
    { apply validate_not_ok. rewrite validate_ok, HL. intros [_ [_ D]].
      apply D. exists 1%nat. split; [simpl; lia|exact Cab]. }
    split; [exact V | now apply encode_validate_error].
  - intros node HL NC Wa Wb. rewrite validate_ok, HL. split; [assumption|].
    split; [|exact Hno].
    intros j Hj; simpl in Hj.
    destruct j as [|[|j]]; simpl; [assumption|assumption|lia].
  - intros node NC W.
    assert (Hok : validate node = Ok tt
                  <-> ~ exists j, decreasingAt (elements (get node "Links")) j).
    { rewrite validate_ok. tauto. }
    split; [|exact Hok]. split.
    + intros [msg E]. rewrite validate_nodeChecks, NC in E.
      destruct (validateLinks_throw _ _ _ E) as [[j [Hj Wj]]|[j [Hj [Hp C]]]].
      * elim Wj. apply W; lia.
      * exists j. split; [lia|assumption].
    + intros D. apply validate_not_ok. rewrite Hok. tauto.
Qed.

Lemma validateLink_needs_CID (link : JsVal) :
  validateLink link = Ok tt -> exists c, get link "Hash" = VCid c.
Proof.
  unfold validateLink.
  destruct (negb (truthy link) || _ || isArray link); [discriminate|].
  destruct (negb (hasOnlyProperties link pbLinkProperties)); [discriminate|].
  destruct (negb (truthy (get link "Hash"))); [discriminate|].
  destruct (get link "Hash"); simpl; try discriminate. eauto.
Qed.

Lemma validate_links_have_CID (node : JsVal) (j : nat) :
  validate node = Ok tt ->
  (j < List.length (elements (get node "Links")))%nat ->
  exists c, get (nth j (elements (get node "Links")) VUndefined) "Hash" = VCid c.
Proof.
  rewrite validate_ok. intros [_ [W _]] Hj. apply validateLink_needs_CID, W, Hj.
Qed.

(** ** The normalizer *)

Lemma get_setProp_same (k : string) (v : JsVal) (props : list (string * JsVal)) :
  get (VObj (setProp k v props)) k = v.
Proof.
  unfold get. induction props as [|[k' v'] props IH]; simpl.
  - now rewrite String.eqb_refl.
  - destruct (String.eqb_spec k k') as [->|Hne]; simpl.
    + now rewrite String.eqb_refl.
    + destruct (String.eqb_spec k k'); [contradiction|assumption].
Qed.

Lemma get_setProp_other (k k' : string) (v : JsVal) (props : list (string * JsVal)) :
  k <> k' -> get (VObj (setProp k v props)) k' = get (VObj props) k'.
Proof.
  intros Hne. unfold get. induction props as [|[k0 v0] props IH]; simpl.
  - destruct (String.eqb_spec k' k); [congruence|reflexivity].
  - destruct (String.eqb_spec k k0) as [->|H0]; simpl.
    + destruct (String.eqb_spec k' k0); [congruence|reflexivity].
    + destruct (String.eqb_spec k' k0); [reflexivity|assumption].
Qed.

Lemma resolveHash_error (hash : JsVal) (e : exn) :
  resolveHash hash = Throw e -> exists msg, e = TypeError msg.
Proof.
  unfold resolveHash. destruct (truthy hash); [|discriminate].
  destruct (CID_asCID hash); [discriminate|].
  destruct hash; try discriminate.
  - destruct (CID_parse s); [discriminate|]. intros H; inversion H; eauto.
  - destruct (CID_decode b); [discriminate|]. intros H; inversion H; eauto.
Qed.

Lemma asLink_error (link : JsVal) (e : exn) :
  asLink link = Throw e -> exists msg, e = TypeError msg.
Proof.
  unfold asLink. intros H.
  destruct link; try (inversion H; eauto; fail);
    (destruct (resolveHash _) as [[c|]|e'] eqn:E; simpl in H;
     [discriminate
     |inversion H; eauto
     |inversion H; subst; eapply resolveHash_error; eassumption]).
Qed.

Lemma mapM_error {A B : Type} (f : A -> result B) (P : exn -> Prop) (l : list A) :
  (forall a e, f a = Throw e -> P e) ->
  forall e, mapM f l = Throw e -> P e.
Proof.
  intros Hf. induction l as [|a l IH]; simpl; intros e; [discriminate|].
  destruct (f a) eqn:E; simpl.
  - destruct (mapM f l); simpl; [discriminate|].
    intros H; inversion H; subst. now apply IH.
  - intros H; inversion H; subst. eapply Hf; eassumption.
Qed.

Lemma mapM_In_fails {A B : Type} (f : A -> result B) (l : list A) (a : A) :
  In a l -> isOk (f a) = false -> isOk (mapM f l) = false.
Proof.
  induction l as [|x l IH]; simpl; [contradiction|].
  intros [->|Hin] Ha.
  - destruct (f a); [discriminate|reflexivity].
  - destruct (f x); simpl; [|reflexivity].
    specialize (IH Hin Ha). destruct (mapM f l); [discriminate|reflexivity].
Qed.

Lemma prepare_links (node : JsVal) (links : list JsVal) :
  get node "Links" = VArr links -> links <> [] ->
  exists pbn,
    prepare node =
    (ls <- mapM asLink links ;;
     Ok (VObj (setProp "Links" (VArr (sortBy linkComparator ls)) pbn))).
Proof.
  intros HL Hne.
  destruct node; try discriminate HL.
  unfold prepare. simpl. rewrite HL. simpl.
  destruct links as [|l links]; [congruence|]. simpl.
  eexists. reflexivity.
Qed.

Lemma asLink_fails (link : JsVal) :
  (forall c, resolveHash (get link "Hash") <> Ok (Some c)) ->
  isOk (asLink link) = false.
Proof.
  intros H. unfold asLink.
  destruct link; try reflexivity;
    (destruct (resolveHash _) as [[c|]|e] eqn:E; simpl;
     [now elim (H c) | reflexivity | reflexivity]).
Qed.

Lemma prepare_bad_link (node link : JsVal) :
  In link (elements (get node "Links")) ->
  (forall c, resolveHash (get link "Hash") <> Ok (Some c)) ->
  isFormError (prepare node).
Proof.
  intros Hin Hbad.
  destruct (get node "Links") as [| | | | | | |links|] eqn:HL; try contradiction.
  simpl in Hin.
  assert (Hne : links <> []) by (intros ->; contradiction).
  destruct (prepare_links _ HL Hne) as [pbn ->].
  assert (F : isOk (mapM asLink links) = false).
  { apply mapM_In_fails with (a := link); [assumption|].
    now apply asLink_fails. }
  destruct (mapM asLink links) as [ls|e] eqn:E; [discriminate|].
  destruct (mapM_error asLink (fun e => exists msg, e = TypeError msg) links
              asLink_error E) as [msg ->].
  exists msg. reflexivity.
Qed.

Lemma asLink_accepts (link : JsVal) (c : CID) :
  resolveHash (get link "Hash") = Ok (Some c) ->
  get link "Hash" <> VUndefined ->
  exists out, asLink link = Ok out /\ get out "Hash" = VCid c.
Proof.
  intros R Hdef. unfold asLink.
  destruct link; try (now elim Hdef);
    (rewrite R; simpl; eexists; split; [reflexivity|];
     repeat match goal with
            | |- context [if ?b then _ else _] => destruct b
            end;
     repeat (rewrite get_setProp_other by discriminate); reflexivity).
Qed.

(** C5. A link with no Hash, or whose Hash is raw bytes or text rather
    than a content identifier, makes [validate] raise a form error, though
    [prepare] accepts bytes and text that the CID library can read and
    turns them into a content identifier; [prepare] raises a form error
    for a link with no Hash or whose Hash the CID library fails to parse
    or decode, wherever the link stands in the list. *)
Theorem hash_required (node link : JsVal) :
  In link (elements (get node "Links")) ->
  ((get link "Hash" = VUndefined
    \/ (exists b, get link "Hash" = VBytes b)
    \/ (exists s, get link "Hash" = VStr s)) ->
   isFormError (validate node))
  /\ ((get link "Hash" = VUndefined
       \/ (exists s, get link "Hash" = VStr s /\ CID_parse s = None)
       \/ (exists b, get link "Hash" = VBytes b /\ CID_decode b = None)) ->
      isFormError (prepare node))
  /\ (forall b c, get link "Hash" = VBytes b -> CID_decode b = Some c ->
        exists out, asLink link = Ok out /\ get out "Hash" = VCid c)
  /\ (forall s c, get link "Hash" = VStr s -> s <> "" -> CID_parse s = Some c ->
        exists out, asLink link = Ok out /\ get out "Hash" = VCid c).
Proof.
  intros Hin. repeat split.
  - intros Hbad. apply validate_not_ok. intros V.
    destruct (In_nth _ _ VUndefined Hin) as [j [Hj Ej]].
    destruct (@validate_links_have_CID node j V Hj) as [c Hc]. rewrite Ej in Hc.
    destruct Hbad as [H|[[b H]|[s H]]]; congruence.
  - intros Hbad. apply prepare_bad_link with (link := link); [assumption|].
    intros c. destruct Hbad as [H|[[s [H P]]|[b [H D]]]]; rewrite H;
      unfold resolveHash; simpl.
    + discriminate.
    + destruct (negb (s =? "")%string); [rewrite P|]; discriminate.
    + rewrite D. discriminate.
  - intros b c H D. apply asLink_accepts; [|congruence].
    rewrite H. unfold resolveHash; simpl. now rewrite D.
  - intros s c H Hs P. apply asLink_accepts; [|congruence].
    rewrite H. unfold resolveHash; simpl.
    destruct (String.eqb_spec s ""); [contradiction|]. simpl. now rewrite P.
Qed.

(** C4 (as amended). [prepare] leaves Data out when the Data of the input
    record is absent or the empty string; a byte sequence of length 0,
    given as the input itself or as the Data of a record, is kept as a
    present Data of length 0. *)
Theorem prepare_empty_data :
  (forall props out,
     get (VObj props) "Data" = VUndefined \/ get (VObj props) "Data" = VStr "" ->
     prepare (VObj props) = Ok out -> get out "Data" = VUndefined)
  /\ (exists out, prepare (VBytes []) = Ok out /\ get out "Data" = VBytes [])
  /\ (forall props out,
        get (VObj props) "Data" = VBytes [] ->
        prepare (VObj props) = Ok out -> get out "Data" = VBytes []).
Proof.
  repeat split.
  - intros props out HD. unfold prepare. simpl.
    assert (T : truthy (get (VObj props) "Data") = false)
      by (destruct HD as [-> | ->]; reflexivity).
    rewrite T.
    destruct (truthy (get (VObj props) "Links") && _ && _).
    + destruct (mapM asLink _); simpl; [|discriminate].
      intros H; inversion H; subst.
      reflexivity.
    + intros H; inversion H; subst.
      reflexivity.
  - eexists. split; reflexivity.
  - intros props out HD. unfold prepare. simpl. rewrite HD. simpl.
    destruct (truthy (get (VObj props) "Links") && _ && _).
    + destruct (mapM asLink _); simpl; [|discriminate].
      intros H; inversion H; subst.
      reflexivity.
    + intros H; inversion H; subst.
      reflexivity.
Qed.

(** C10. [prepare] keeps any numeric Tsize, so there are inputs it accepts
    whose result [validate] rejects: a link with Tsize 1.5 passes
    [prepare] unchanged and then fails the integer check of [validate]. *)
Theorem prepare_output_may_be_invalid (c : CID) :
  (forall link q out,
     asLink link = Ok out -> get link "Tsize" = VNum q ->
     get out "Tsize" = VNum q)
  /\ exists input out,
       prepare input = Ok out
       /\ get (nth 0 (elements (get out "Links")) VUndefined) "Tsize" = VNum (3 # 2)
       /\ isFormError (validate out).
Proof.
  split.
  - intros link q out. unfold asLink.
    destruct link; try discriminate;
      (destruct (resolveHash _) as [[c'|]|e]; simpl; try discriminate;
       intros H HT; inversion H; subst; rewrite HT; simpl;
       apply get_setProp_same).
  - exists (VObj [("Links", VArr [VObj [("Hash", VCid c); ("Tsize", VNum (3 # 2))]])]).
    eexists. split; [reflexivity|]. split; [reflexivity|].
    eexists. reflexivity.
Qed.

(** ** Sorting establishes the canonical order *)

Lemma scan_swap (abuf bbuf : list byte) (n i : nat) (x y : N) :
  scan bbuf abuf n i y x = let '(p, q) := scan abuf bbuf n i x y in (q, p).
Proof.
  revert i; induction n as [|n IH]; intros i; simpl; [reflexivity|].
  rewrite (N.eqb_sym (byteAt bbuf i)).
  destruct (byteAt abuf i =? byteAt bbuf i)%N; simpl; [apply IH|reflexivity].
Qed.

Lemma linkComparator_antisym (a b : JsVal) :
  linkComparator b a = - linkComparator a b.
Proof.
  rewrite !linkComparator_unfold, Nat.min_comm, scan_swap.
  destruct (scan _ _ _ _ _ _) as [x y]. unfold sign.
  destruct (N.ltb_spec x y), (N.ltb_spec y x); try reflexivity; lia.
Qed.

Lemma insertBy_sorted (x : JsVal) (l : list JsVal) :
  Sorted notAfter l -> Sorted notAfter (insertBy linkComparator x l).
Proof.
  induction l as [|y l IH]; intros Hs; simpl.
  - repeat constructor.
  - destruct (Z.leb_spec (linkComparator x y) 0) as [C|C].
    + constructor; [assumption|]. constructor. exact C.
    + assert (Cyx : notAfter y x)
        by (unfold notAfter; rewrite linkComparator_antisym; lia).
      inversion Hs as [|? ? Hs' Hd]; subst.
      constructor; [now apply IH|].
      destruct l as [|z l]; simpl.
      * constructor. exact Cyx.
      * destruct (linkComparator x z <=? 0); constructor;
          [exact Cyx | now inversion Hd].
Qed.

Lemma sortBy_sorted (l : list JsVal) : Sorted notAfter (sortBy linkComparator l).
Proof.
  induction l as [|x l IH]; simpl; [constructor | now apply insertBy_sorted].
Qed.

Lemma Sorted_adjacent (l : list JsVal) :
  Sorted notAfter l ->
  forall j, (0 < j < List.length l)%nat ->
            notAfter (nth (j - 1) l VUndefined) (nth j l VUndefined).
Proof.
  induction 1 as [|x l Hs IH Hd]; intros j Hj; simpl in Hj; [lia|].
  destruct j as [|[|j]]; [lia| |].
  - simpl. destruct l as [|y l]; [simpl in Hj; lia|]. now inversion Hd.
  - specialize (IH (S j) ltac:(lia)).
    simpl in IH. rewrite Nat.sub_0_r in IH. exact IH.
Qed.

Lemma sorted_not_decreasing (l : list JsVal) :
  Sorted notAfter l -> ~ exists j, decreasingAt l j.
Proof.
  intros Hs [j [Hj C]]. pose proof (Sorted_adjacent Hs Hj) as H.
  unfold notAfter in H. rewrite linkComparator_antisym in C. lia.
Qed.

Lemma prepare_ok_links (node out : JsVal) :
  prepare node = Ok out ->
  (get out "Links" = VArr []
   /\ (truthy (get node "Links") && isArray (get node "Links")
       && negb (List.length (elements (get node "Links")) =? 0)%nat = false))
  \/ (exists ls, get out "Links" = VArr (sortBy linkComparator ls)
                  /\ get node "Links" <> VUndefined
                  /\ get node "Links" <> VArr []).
Proof.
  unfold prepare. intros H.
  destruct node; simpl in H; try discriminate H;
    try (inversion H; left; split; reflexivity).
  destruct (truthy (get (VObj props) "Links") && _ && _) eqn:C.
  - destruct (mapM asLink _) as [ls|e]; simpl in H; [|discriminate].
    right. exists ls. inversion H. split; [apply get_setProp_same|].
    split; intros E; rewrite E in C; discriminate.
  - left. split; [|reflexivity]. inversion H. apply get_setProp_same.
Qed.

(** C7. Whenever [prepare] succeeds, the Links of its result are in
    canonical order: no link compares as strictly before its predecessor
    (the check [validate] makes), every adjacent pair being non-decreasing
    under [linkComparator]; an input with no links, or with an empty list
    of links, gives the empty sequence. *)
Theorem prepare_links_canonical (node out : JsVal) :
  prepare node = Ok out ->
  (~ exists j, decreasingAt (elements (get out "Links")) j)
  /\ (forall j, (0 < j < List.length (elements (get out "Links")))%nat ->
        linkComparator (nth (j - 1) (elements (get out "Links")) VUndefined)
                       (nth j (elements (get out "Links")) VUndefined) <= 0)
  /\ (get node "Links" = VUndefined \/ get node "Links" = VArr [] ->
      get out "Links" = VArr []).
Proof.
  intros H.
  assert (Hs : Sorted notAfter (elements (get out "Links"))).
  { destruct (prepare_ok_links _ H) as [[E _]|[ls [E _]]]; rewrite E; simpl.
    - constructor.
    - apply sortBy_sorted. }
  split; [now apply sorted_not_decreasing|]. split.
  - intros j Hj. exact (Sorted_adjacent Hs Hj).
  - intros Hno. destruct (prepare_ok_links _ H) as [[E _]|[ls [_ [N1 N2]]]];
      [assumption|]. destruct Hno; contradiction.
Qed.

(** ** decode *)

Lemma mapM_Forall2 {A B : Type} (f : A -> result B) (l : list A) (ls : list B) :
  mapM f l = Ok ls -> Forall2 (fun a b => f a = Ok b) l ls.
Proof.
  revert ls; induction l as [|a l IH]; simpl; intros ls H.
  - inversion H. constructor.
  - destruct (f a) as [b|] eqn:E; simpl in H; [|discriminate].
    destruct (mapM f l) as [bs|]; simpl in H; [|discriminate].
    inversion H; subst. constructor; [assumption|now apply IH].
Qed.

Lemma decodeNode_shape (bytes : list byte) (pbn : JsVal) :
  decodeNode bytes = Ok pbn ->
  exists links, get pbn "Links" = VArr links
    /\ (get pbn "Data" = VUndefined \/ exists d, get pbn "Data" = VBytes d).
Proof.
  unfold decodeNode.
  destruct (decodeNodeFuel _ _ _ _) as [[data links]|e]; simpl; [|discriminate].
  intros H; inversion H; subst. exists links.
  destruct data as [d|]; (split; [reflexivity|]); [right; now exists d | now left].
Qed.

Lemma decode_unfold (bytes : list byte) (pbn : JsVal) (links : list JsVal) :
  decodeNode bytes = Ok pbn -> get pbn "Links" = VArr links ->
  exists node,
    decode bytes = (ls <- mapM decodeLinkObj links ;;
                    Ok (VObj (setProp "Links" (VArr ls) node))).
Proof.
  intros D L. unfold decode. rewrite D. simpl. rewrite L. simpl.
  eexists. reflexivity.
Qed.

Lemma decodeLinkObj_ok (l link : JsVal) :
  decodeLinkObj l = Ok link ->
  exists c, get link "Hash" = VCid c /\ tryDecodeCID (get l "Hash") = Some c.
Proof.
  unfold decodeLinkObj. destruct (tryDecodeCID (get l "Hash")) as [c|]; [|discriminate].
  intros H; inversion H. exists c. split; [|reflexivity].
  repeat match goal with
         | |- context [if ?b then _ else _] => destruct b
         end;
    repeat (rewrite get_setProp_other by discriminate); reflexivity.
Qed.

Lemma decodeLinkObj_error (l : JsVal) (e : exn) :
  decodeLinkObj l = Throw e -> exists msg, e = Error msg.
Proof.
  unfold decodeLinkObj. destruct (tryDecodeCID (get l "Hash")); [discriminate|].
  intros H; inversion H; eauto.
Qed.

Lemma decode_bad_link (bytes : list byte) (pbn l : JsVal) :
  decodeNode bytes = Ok pbn -> In l (elements (get pbn "Links")) ->
  tryDecodeCID (get l "Hash") = None ->
  exists msg, decode bytes = Throw (Error msg).
Proof.
  intros D Hin Hbad. destruct (decodeNode_shape _ D) as [links [L _]].
  destruct (decode_unfold _ D L) as [node ->]. rewrite L in Hin; simpl in Hin.
  assert (F : isOk (mapM decodeLinkObj links) = false).
  { apply mapM_In_fails with (a := l); [assumption|].
    unfold decodeLinkObj. now rewrite Hbad. }
  destruct (mapM decodeLinkObj links) as [ls|e] eqn:E; [discriminate|].
  destruct (mapM_error decodeLinkObj (fun e => exists msg, e = Error msg) links
              decodeLinkObj_error E) as [msg ->].
  exists msg. reflexivity.
Qed.

Lemma decode_links_have_CID (bytes : list byte) (node link : JsVal) :
  decode bytes = Ok node -> In link (elements (get node "Links")) ->
  exists c, get link "Hash" = VCid c.
Proof.
  intros H Hin. destruct (decodeNode bytes) as [pbn|e] eqn:D;
    [|unfold decode in H; rewrite D in H; discriminate].
  destruct (decodeNode_shape _ D) as [links [L _]].
  destruct (decode_unfold _ D L) as [nd E]. rewrite E in H.
  destruct (mapM decodeLinkObj links) as [ls|e] eqn:M; simpl in H; [|discriminate].
  inversion H; subst. rewrite get_setProp_same in Hin. simpl in Hin.
  pose proof (mapM_Forall2 _ _ M) as F.
  clear - F Hin. induction F as [|a b l ls Hab F IH]; [contradiction|].
  destruct Hin as [->|Hin]; [|now apply IH].
  destruct (decodeLinkObj_ok _ Hab) as [c [Hc _]]. now exists c.
Qed.

(** C8. When the wire bytes hold a link whose Hash bytes the CID library
    does not decode, [decode] raises an error; a node [decode] returns has
    a content identifier as the Hash of every link (never a missing or
    substitute one), and a failure of the wire parser is passed on with no
    node returned. *)
Theorem decode_rejects_malformed_hash (bytes : list byte) :
  (forall pbn l b,
     decodeNode bytes = Ok pbn -> In l (elements (get pbn "Links")) ->
     get l "Hash" = VBytes b -> CID_decode b = None ->
     exists msg, decode bytes = Throw (Error msg))
  /\ (forall node link,
        decode bytes = Ok node -> In link (elements (get node "Links")) ->
        exists c, get link "Hash" = VCid c)
  /\ (forall e, decodeNode bytes = Throw e -> decode bytes = Throw e).
Proof.
  repeat split.
  - intros pbn l b D Hin HH Hbad. apply decode_bad_link with (pbn := pbn) (l := l);
      [assumption|assumption|]. rewrite HH. exact Hbad.
  - intros node link. apply decode_links_have_CID.
  - intros e D. unfold decode. now rewrite D.
Qed.

(** C9. When the wire bytes hold a link with no Hash field, [decode]
    raises an error, though the wire schema lets the field be absent: the
    Hash of every link of a decoded node is a content identifier that the
    CID library read from the Hash bytes of the wire.  The message made of
    one empty link is such an input. *)
Theorem decode_requires_hash (bytes : list byte) :
  (forall pbn l,
     decodeNode bytes = Ok pbn -> In l (elements (get pbn "Links")) ->
     get l "Hash" = VUndefined ->
     exists msg, decode bytes = Throw (Error msg))
  /\ (forall node link,
        decode bytes = Ok node -> In link (elements (get node "Links")) ->
        exists c, get link "Hash" = VCid c)
  /\ decode [x12; x00]
     = Throw (Error "Invalid Hash field found in link, expected CID").
Proof.
  repeat split.
  - intros pbn l D Hin HH. apply decode_bad_link with (pbn := pbn) (l := l);
      [assumption|assumption|]. now rewrite HH.
  - intros node link. apply decode_links_have_CID.
Qed.

(** ** The wire format gives back what was written *)

Lemma to_N_byte_of_N (n : N) : Byte.to_N (byte_of_N n) = (n mod 256)%N.
Proof.
  unfold byte_of_N. destruct (Byte.of_N (n mod 256)) as [b|] eqn:E.
  - now apply Byte.to_of_N.
  - apply Byte.of_N_None_iff in E.
    pose proof (N.mod_upper_bound n 256 ltac:(discriminate)). lia.
Qed.

Lemma decodeVarint_cons (b : byte) (rest : list byte) :
  decodeVarint (b :: rest) =
  if (Byte.to_N b <? 128)%N then Some (Byte.to_N b, rest)
  else match decodeVarint rest with
       | Some (hi, rest') => Some (Byte.to_N b - 128 + 128 * hi, rest')%N
       | None => None
       end.
Proof. reflexivity. Qed.

Lemma encodeVarintFuel_S (fuel : nat) (n : N) :
  encodeVarintFuel (S fuel) n =
  if (n <? 128)%N then [byte_of_N n]
  else byte_of_N (n mod 128 + 128) :: encodeVarintFuel fuel (n / 128).
Proof. reflexivity. Qed.

Lemma decodeVarint_small (n : N) (rest : list byte) :
  (n < 128)%N -> decodeVarint (byte_of_N n :: rest) = Some (n, rest).
Proof.
  intros H. rewrite decodeVarint_cons, to_N_byte_of_N, N.mod_small by lia.
  destruct (N.ltb_spec n 128); [reflexivity|lia].
Qed.

Lemma decodeVarint_encodeFuel (fuel : nat) (n : N) (rest : list byte) :
  (n < 2 ^ (7 * N.of_nat (S fuel)))%N ->
  decodeVarint (encodeVarintFuel (S fuel) n ++ rest) = Some (n, rest).
Proof.
  revert n; induction fuel as [|fuel IH]; intros n Hn.
  - change (2 ^ (7 * N.of_nat 1))%N with 128%N in Hn.
    rewrite encodeVarintFuel_S. destruct (N.ltb_spec n 128) as [_|H]; [|lia].
    now apply decodeVarint_small.
  - rewrite (encodeVarintFuel_S (S fuel) n).
    destruct (N.ltb_spec n 128) as [H|H]; [now apply decodeVarint_small|].
    rewrite <- app_comm_cons, decodeVarint_cons, to_N_byte_of_N.
    pose proof (N.mod_upper_bound n 128 ltac:(discriminate)) as Hm.
    pose proof (N.le_0_l (n mod 128)) as Hm0.
    pose proof (N.le_0_l (n / 128)) as Hq0.
    rewrite (N.mod_small (n mod 128 + 128) 256) by (clear - Hm Hm0; lia).
    destruct (N.ltb_spec (n mod 128 + 128) 128) as [H0|_]; [clear - H0 Hm0; lia|].
    rewrite IH.
    + f_equal. f_equal.
      pose proof (N.div_mod n 128 ltac:(discriminate)) as Hd. clear - Hd Hm0 Hq0. lia.
    + apply N.Div0.div_lt_upper_bound.
      replace (7 * N.of_nat (S (S fuel)))%N
        with (7 + 7 * N.of_nat (S fuel))%N in Hn by lia.
      rewrite N.pow_add_r in Hn. exact Hn.
Qed.

Lemma decodeVarint_encode (n : N) (rest : list byte) :
  decodeVarint (encodeVarint n ++ rest) = Some (n, rest).
Proof.
  unfold encodeVarint. apply decodeVarint_encodeFuel.
  eapply N.lt_le_trans; [apply N.size_gt|].
  apply N.pow_le_mono_r; [discriminate|].
  rewrite Nnat.Nat2N.inj_succ, Nnat.N2Nat.id. lia.
Qed.

Lemma firstn_skipn_app (b rest : list byte) :
  firstn (List.length b) (b ++ rest) = b /\ skipn (List.length b) (b ++ rest) = rest.
Proof.
  induction b as [|x b [IH1 IH2]]; simpl; [now split|].
  rewrite IH1. now split.
Qed.

Lemma decodeBytes_encode (b rest : list byte) :
  decodeBytes (encodeBytes b ++ rest) = Some (b, rest).
Proof.
  unfold decodeBytes, encodeBytes. rewrite <- app_assoc, decodeVarint_encode.
  destruct (N.ltb_spec (N.of_nat (List.length (b ++ rest))) (N.of_nat (List.length b))) as [H|_].
  - rewrite length_app in H. lia.
  - rewrite Nnat.Nat2N.id. destruct (firstn_skipn_app b rest) as [-> ->]. reflexivity.
Qed.

Lemma decodeVarint_key (k : byte) (rest : list byte) :
  (Byte.to_N k <? 128)%N = true ->
  decodeVarint (k :: rest) = Some (Byte.to_N k, rest).
Proof. intros H. now rewrite decodeVarint_cons, H. Qed.

Lemma decodeLinkFuel_hash (f : nat) (b rest : list byte) (link : list (string * JsVal)) :
  decodeLinkFuel (S f) (x0a :: encodeBytes b ++ rest) link
  = decodeLinkFuel f rest (setProp "Hash" (VBytes b) link).
Proof.
  cbn [decodeLinkFuel]. rewrite decodeVarint_key by reflexivity.
  cbn. now rewrite decodeBytes_encode.
Qed.

Lemma decodeLinkFuel_name (f : nat) (b rest : list byte) (link : list (string * JsVal)) :
  decodeLinkFuel (S f) (x12 :: encodeBytes b ++ rest) link
  = decodeLinkFuel f rest (setProp "Name" (VStr (string_of_list_byte b)) link).
Proof.
  cbn [decodeLinkFuel]. rewrite decodeVarint_key by reflexivity.
  cbn. now rewrite decodeBytes_encode.
Qed.

Lemma decodeLinkFuel_tsize (f : nat) (t : N) (rest : list byte) (link : list (string * JsVal)) :
  decodeLinkFuel (S f) (x18 :: encodeVarint t ++ rest) link
  = decodeLinkFuel f rest (setProp "Tsize" (VNum (inject_Z (Z.of_N t))) link).
Proof.
  cbn [decodeLinkFuel]. rewrite decodeVarint_key by reflexivity.
  cbn. now rewrite decodeVarint_encode.
Qed.

Lemma stage_hash (h : JsVal) (f : nat) (rest : list byte) (link : list (string * JsVal)) :
  (List.length ((match h with VBytes b => x0a :: encodeBytes b | _ => [] end) ++ rest)
   <= f)%nat ->
  exists f', (List.length rest <= f')%nat
    /\ decodeLinkFuel f
         ((match h with VBytes b => x0a :: encodeBytes b | _ => [] end) ++ rest) link
       = decodeLinkFuel f' rest
           (match h with VBytes b => setProp "Hash" (VBytes b) link | _ => link end).
Proof.
  intros H. destruct h; try (exists f; split; [assumption|reflexivity]).
  destruct f as [|f]; [simpl in H; lia|]. exists f. split.
  - simpl in H. rewrite length_app in H. lia.
  - apply decodeLinkFuel_hash.
Qed.

Lemma stage_name (nm : JsVal) (f : nat) (rest : list byte) (link : list (string * JsVal)) :
  (List.length ((match nm with
                 | VStr s => x12 :: encodeBytes (list_byte_of_string s)
                 | _ => []
                 end) ++ rest) <= f)%nat ->
  exists f', (List.length rest <= f')%nat
    /\ decodeLinkFuel f
         ((match nm with
           | VStr s => x12 :: encodeBytes (list_byte_of_string s)
           | _ => []
           end) ++ rest) link
       = decodeLinkFuel f' rest
           (match nm with VStr s => setProp "Name" (VStr s) link | _ => link end).
Proof.
  intros H. destruct nm; try (exists f; split; [assumption|reflexivity]).
  destruct f as [|f]; [simpl in H; lia|]. exists f. split.
  - simpl in H. rewrite length_app in H. lia.
  - cbn [app]. now rewrite decodeLinkFuel_name, string_of_list_byte_of_string.
Qed.

Lemma stage_tsize (ts : JsVal) (tb : list byte) (f : nat)
  (link : list (string * JsVal)) :
  match ts with
  | VNum q =>
      match tsizeToWire q with
      | Some n => Ok (x18 :: encodeVarint n)
      | None => Throw (Error "Tsize cannot be negative")
      end
  | _ => Ok []
  end = Ok tb ->
  (List.length tb <= f)%nat ->
  decodeLinkFuel f tb link
  = Ok (match ts with
        | VNum q =>
            match tsizeToWire q with
            | Some n => setProp "Tsize" (VNum (inject_Z (Z.of_N n))) link
            | None => link
            end
        | _ => link
        end).
Proof.
  intros E H.
  destruct ts; try (inversion E; subst; destruct f; reflexivity).
  destruct (tsizeToWire q) as [n|]; [|discriminate].
  inversion E; subst; clear E.
  destruct f as [|f]; [simpl in H; lia|].
  rewrite <- (app_nil_r (encodeVarint _)), decodeLinkFuel_tsize.
  destruct f; reflexivity.
Qed.

Lemma decodeLink_encodeLink (w : JsVal) (b : list byte) :
  encodeLink w = Ok b -> decodeLink b = Ok (wireLink w).
Proof.
  unfold encodeLink.
  destruct (match get w "Tsize" with
            | VNum q =>
                match tsizeToWire q with
                | Some n => Ok (x18 :: encodeVarint n)
                | None => Throw (Error "Tsize cannot be negative")
                end
            | _ => Ok []
            end) as [tb|e] eqn:T; cbn [bind]; [|discriminate].
  intros E; inversion E; subst; clear E.
  unfold decodeLink, wireLink.
  match goal with
  | |- context [decodeLinkFuel _ (_ ++ ?R) []] =>
      destruct (@stage_hash (get w "Hash") _ R [] (Nat.le_refl _)) as [f1 [H1 E1]]
  end.
  rewrite E1.
  match goal with
  | |- context [decodeLinkFuel f1 _ ?L] =>
      destruct (@stage_name (get w "Name") _ _ L H1) as [f2 [H2 E2]]
  end.
  rewrite E2.
  match goal with
  | |- context [decodeLinkFuel f2 _ ?L] =>
      rewrite (@stage_tsize (get w "Tsize") tb f2 L T H2)
  end.
  reflexivity.
Qed.

Lemma decodeNodeFuel_link (f : nat) (l : JsVal) (b rest : list byte)
  (data : option (list byte)) (acc : list JsVal) :
  encodeLink l = Ok b ->
  decodeNodeFuel (S f) (x12 :: encodeBytes b ++ rest) data acc
  = decodeNodeFuel f rest data (acc ++ [wireLink l]).
Proof.
  intros E. cbn [decodeNodeFuel]. rewrite decodeVarint_key by reflexivity.
  cbn. rewrite decodeBytes_encode. now erewrite decodeLink_encodeLink by exact E.
Qed.

Lemma decodeNodeFuel_data (f : nat) (d rest : list byte)
  (data : option (list byte)) (acc : list JsVal) :
  decodeNodeFuel (S f) (x0a :: encodeBytes d ++ rest) data acc
  = decodeNodeFuel f rest (Some d) acc.
Proof.
  cbn [decodeNodeFuel]. rewrite decodeVarint_key by reflexivity.
  cbn. now rewrite decodeBytes_encode.
Qed.

Lemma mapM_cons_ok {A B : Type} (f : A -> result B) (a : A) (l : list A)
  (bs : list B) :
  mapM f (a :: l) = Ok bs ->
  exists b bs', f a = Ok b /\ mapM f l = Ok bs' /\ bs = b :: bs'.
Proof.
  cbn [mapM]. destruct (f a) as [b|]; cbn [bind]; [|discriminate].
  destruct (mapM f l) as [bs'|]; cbn [bind]; [|discriminate].
  intros E; inversion E; subst. now exists b, bs'.
Qed.

Lemma encodeLinkField_ok (l : JsVal) (chunk : list byte) :
  encodeLinkField l = Ok chunk ->
  exists b, encodeLink l = Ok b /\ chunk = x12 :: encodeBytes b.
Proof.
  unfold encodeLinkField. destruct (encodeLink l) as [b|]; cbn [bind]; [|discriminate].
  intros E; inversion E; subst. now exists b.
Qed.

Lemma decodeNodeFuel_links (ls : list JsVal) :
  forall (chunks : list (list byte)) (f : nat) (tail : list byte)
         (data : option (list byte)) (acc : list JsVal),
    mapM encodeLinkField ls = Ok chunks ->
    (List.length (List.concat chunks ++ tail) <= f)%nat ->
    exists f', (List.length tail <= f')%nat
      /\ decodeNodeFuel f (List.concat chunks ++ tail) data acc
         = decodeNodeFuel f' tail data (acc ++ map wireLink ls).
Proof.
  induction ls as [|l ls IH]; intros chunks f tail data acc M H.
  - inversion M; subst. exists f. split; [assumption|]. simpl. now rewrite app_nil_r.
  - apply mapM_cons_ok in M. destruct M as [chunk [chunks' [E [M ->]]]].
    apply encodeLinkField_ok in E. destruct E as [b [E ->]].
    cbn [List.concat] in *. rewrite <- app_assoc in *. rewrite <- app_comm_cons in *.
    destruct f as [|f]; [simpl in H; lia|].
    erewrite decodeNodeFuel_link by exact E.
    destruct (IH chunks' f tail data (acc ++ [wireLink l]) M) as [f' [H' E']].
    + simpl in H. rewrite length_app in H. lia.
    + exists f'. split; [assumption|]. rewrite E', <- app_assoc. reflexivity.
Qed.

Lemma decodeNode_encodeNode (pbn : JsVal) (bytes : list byte) :
  encodeNode pbn = Ok bytes ->
  decodeNode bytes
  = Ok (VObj ((match get pbn "Data" with
               | VBytes d => [("Data", VBytes d)]
               | _ => []
               end)
              ++ [("Links", VArr (map wireLink (elements (get pbn "Links"))))])).
Proof.
  unfold encodeNode.
  destruct (mapM encodeLinkField (elements (get pbn "Links"))) as [chunks|] eqn:M;
    cbn [bind]; [|discriminate].
  intros E; inversion E; subst; clear E.
  unfold decodeNode.
  match goal with
  | |- context [decodeNodeFuel _ (_ ++ ?T) None []] =>
      destruct (@decodeNodeFuel_links (elements (get pbn "Links")) chunks _ T None []
                  M (Nat.le_refl _)) as [f [H E]]
  end.
  rewrite E. clear E. cbn [app].
  destruct (get pbn "Data"); try (destruct f; reflexivity).
  destruct f as [|f]; [simpl in H; lia|].
  rewrite <- (app_nil_r (encodeBytes _)), decodeNodeFuel_data.
  destruct f; reflexivity.
Qed.

(** ** Round trip *)

Lemma tsize_wire (q : Q) (n : N) :
  mod1 q = 0 -> tsizeToWire q = Some n ->
  Qeq (inject_Z (Z.of_N n)) q.
Proof.
  unfold mod1, tsizeToWire. intros Hm.
  destruct (Z.ltb_spec (Qnum q / Zpos (Qden q)) 0) as [H|Hn]; [discriminate|].
  intros E; inversion E; subst; clear E.
  destruct (Z.rem_divide (Qnum q) (Zpos (Qden q)) ltac:(discriminate)) as [D _].
  destruct (D Hm) as [k Hk].
  rewrite Hk, Z.div_mul in Hn |- * by discriminate.
  rewrite Z2N.id by assumption.
  unfold Qeq, inject_Z; simpl. lia.
Qed.

Lemma validateLink_fields (l : JsVal) :
  validateLink l = Ok tt ->
  (exists c, get l "Hash" = VCid c)
  /\ (get l "Name" = VUndefined \/ exists s, get l "Name" = VStr s)
  /\ (get l "Tsize" = VUndefined
      \/ exists q, get l "Tsize" = VNum q /\ mod1 q = 0).
Proof.
  intros V. split; [now apply validateLink_needs_CID|].
  unfold validateLink in V.
  destruct (negb (truthy l) || _ || isArray l); [discriminate|].
  destruct (negb (hasOnlyProperties l pbLinkProperties)); [discriminate|].
  destruct (negb (truthy (get l "Hash"))); [discriminate|].
  destruct (negb (isCID (get l "Hash"))); [discriminate|].
  split.
  - destruct (get l "Name"); simpl in V; try discriminate; eauto.
  - destruct (negb (isUndefined (get l "Name")) && _); [discriminate|].
    destruct (get l "Tsize"); simpl in V; try discriminate; [now left|].
    right. exists q. split; [reflexivity|].
    destruct (Z.eqb_spec (mod1 q) 0); [assumption|discriminate].
Qed.

Lemma nodeChecks_fields (node : JsVal) :
  nodeChecks node = true ->
  (exists links, get node "Links" = VArr links)
  /\ (get node "Data" = VUndefined \/ exists d, get node "Data" = VBytes d).
Proof.
  unfold nodeChecks. intros H.
  apply andb_prop in H as [H HL]. apply andb_prop in H as [_ HD].
  split.
  - destruct (get node "Links"); try discriminate. eauto.
  - destruct (get node "Data"); try discriminate; eauto.
Qed.

Lemma linksWellFormed_In (links : list JsVal) (l : JsVal) :
  linksWellFormed links -> In l links -> validateLink l = Ok tt.
Proof.
  intros W Hin. destruct (In_nth _ _ VUndefined Hin) as [j [Hj <-]]. now apply W.
Qed.

Lemma encodeLinkObj_fields (l : JsVal) (c : CID) :
  get l "Hash" = VCid c ->
  (get l "Name" = VUndefined \/ exists s, get l "Name" = VStr s) ->
  (get l "Tsize" = VUndefined \/ exists q, get l "Tsize" = VNum q) ->
  get (encodeLinkObj l) "Hash" = VBytes (CID_bytes c)
  /\ get (encodeLinkObj l) "Name" = get l "Name"
  /\ get (encodeLinkObj l) "Tsize" = get l "Tsize".
Proof.
  intros HH HN HT. unfold encodeLinkObj. rewrite HH.
  destruct HN as [HN|[s HN]], HT as [HT|[q HT]]; rewrite HN, HT;
    repeat split.
Qed.

(** What [decode] makes of a link record that holds the fields [encode]
    wrote for the link [l]. *)
Lemma link_roundtrip (w l : JsVal) :
  cidRoundTrips -> validateLink l = Ok tt -> sameLink w (encodeLinkObj l) ->
  exists l', decodeLinkObj w = Ok l' /\ sameLink l' l.
Proof.
  intros Law V [SH [SN ST]].
  destruct (validateLink_fields _ V) as [[c HH] [HN HT]].
  assert (HT' : get l "Tsize" = VUndefined \/ exists q, get l "Tsize" = VNum q)
    by (destruct HT as [HT|[q [HT _]]]; [now left|right; now exists q]).
  destruct (encodeLinkObj_fields l HH HN HT') as [EH [EN ET]].
  rewrite EH in SH. rewrite EN in SN. rewrite ET in ST.
  unfold decodeLinkObj. rewrite SH. cbn [tryDecodeCID]. rewrite Law, SN.
  unfold sameLink. rewrite HH.
  destruct HT' as [HT'|[q HT']]; rewrite HT' in ST |- *.
  - assert (TU : get w "Tsize" = VUndefined)
      by (destruct (get w "Tsize"); simpl in ST; try discriminate; reflexivity).
    rewrite TU.
    destruct HN as [HN|[s HN]]; rewrite HN; simpl;
      (eexists; split; [reflexivity|]); repeat split.
  - destruct (get w "Tsize") as [| | |p| | | | |] eqn:TW; simpl in ST;
      try discriminate.
    destruct HN as [HN|[s HN]]; rewrite HN; simpl;
      (eexists; split; [reflexivity|]);
      (split; [reflexivity|]); (split; [reflexivity|]);
      unfold get; simpl; exact ST.
Qed.

Lemma links_roundtrip (links : list JsVal) :
  cidRoundTrips ->
  forall ws,
    (forall l, In l links -> validateLink l = Ok tt) ->
    Forall2 (fun w l => sameLink w (encodeLinkObj l)) ws links ->
    exists ls, mapM decodeLinkObj ws = Ok ls /\ Forall2 sameLink ls links.
Proof.
  intros Law ws V F. induction F as [|w l ws links S F IH].
  - exists []. split; [reflexivity|constructor].
  - destruct (@link_roundtrip w l Law (V l (or_introl eq_refl)) S) as [l' [E S']].
    destruct IH as [ls [M F']]; [intros x Hx; apply V; now right|].
    exists (l' :: ls). split; [|now constructor].
    cbn [mapM]. rewrite E. cbn [bind]. rewrite M. reflexivity.
Qed.

(** [decode] on a record of the wire parser that holds what [encode]
    wrote for a node of the required form. *)
Lemma node_roundtrip (node pbn : JsVal) (links ws : list JsVal)
  (bytes : list byte) :
  cidRoundTrips ->
  get node "Links" = VArr links ->
  (get node "Data" = VUndefined \/ exists d, get node "Data" = VBytes d) ->
  (forall l, In l links -> validateLink l = Ok tt) ->
  decodeNode bytes = Ok pbn ->
  get pbn "Links" = VArr ws ->
  wireGivesBack pbn node ->
  exists out, decode bytes = Ok out /\ structurallyEqual out node.
Proof.
  intros Law HL HD W D HW [GD GL].
  rewrite HL, HW in GL. cbn [elements] in GL.
  destruct (@links_roundtrip links Law ws W GL) as [ls [M F]].
  unfold decode. rewrite D. cbn [bind]. rewrite HW. cbn [truthy elements].
  rewrite M. cbn [bind].
  eexists. split; [reflexivity|].
  unfold structurallyEqual. rewrite HL. split.
  - destruct HD as [HD|[d HD]]; rewrite HD in GD |- *; cbn [truthy] in GD;
      rewrite GD; reflexivity.
  - rewrite get_setProp_same. exact F.
Qed.



(** ** The modelled wire format carries what it accepts *)

Lemma wireLink_sameLink (l : JsVal) (b : list byte) :
  validateLink l = Ok tt -> encodeLink (encodeLinkObj l) = Ok b ->
  sameLink (wireLink (encodeLinkObj l)) (encodeLinkObj l).
Proof.
  intros V E.
  destruct (validateLink_fields _ V) as [[c HH] [HN HT]].
  assert (HT' : get l "Tsize" = VUndefined \/ exists q, get l "Tsize" = VNum q)
    by (destruct HT as [HT|[q [HT _]]]; [now left|right; now exists q]).
  destruct (encodeLinkObj_fields l HH HN HT') as [EH [EN ET]].
  unfold encodeLink in E. rewrite ET in E.
  unfold sameLink, wireLink. rewrite EH, EN, ET.
  destruct HT as [HT|[q [HT Hm]]]; rewrite HT in E |- *.
  - destruct HN as [HN|[s HN]]; rewrite HN; repeat split.
  - destruct (tsizeToWire q) as [n|] eqn:T; [|discriminate].
    pose proof (tsize_wire q Hm T) as Q.
    destruct HN as [HN|[s HN]]; rewrite HN;
      (split; [reflexivity|]); (split; [reflexivity|]);
      unfold get; simpl; exact Q.
Qed.

Lemma mapM_encodeLinkField (links : list JsVal) :
  forall chunks,
    (forall l, In l links -> validateLink l = Ok tt) ->
    mapM encodeLinkField (map encodeLinkObj links) = Ok chunks ->
    Forall2 (fun w l => sameLink w (encodeLinkObj l))
      (map wireLink (map encodeLinkObj links)) links.
Proof.
  induction links as [|l links IH]; intros chunks V M; [constructor|].
  cbn [map] in M. apply mapM_cons_ok in M.
  destruct M as [chunk [chunks' [E [M _]]]].
  apply encodeLinkField_ok in E. destruct E as [b [E _]].
  cbn [map]. constructor.
  - apply wireLink_sameLink with (b := b); [|assumption].
    apply V. now left.
  - apply IH with (chunks := chunks'); [|assumption].
    intros x Hx. apply V. now right.
Qed.

(** Whenever the modelled [encodeNode] accepts the record of a node of
    the required form, the modelled [decodeNode] gives it back. *)
Lemma wire_gives_back (node : JsVal) (bytes : list byte) :
  validate node = Ok tt -> encode node = Ok bytes ->
  exists pbn, decodeNode bytes = Ok pbn /\ wireGivesBack pbn node.
Proof.
  intros V E. pose proof V as V'. rewrite validate_ok in V'.
  destruct V' as [NC [W _]].
  destruct (nodeChecks_fields _ NC) as [[links HL] HD].
  rewrite HL in W; simpl in W.
  unfold encode in E. rewrite V in E. cbn [bind] in E.
  rewrite HL in E. cbn [truthy elements] in E.
  assert (VL : forall l, In l links -> validateLink l = Ok tt)
    by (intros l Hl; now apply linksWellFormed_In with (links := links)).
  destruct HD as [HD|[d HD]]; rewrite HD in E; cbn [truthy] in E;
    pose proof E as E'; unfold encodeNode in E';
    unfold get at 1 in E'; simpl in E';
    match type of E' with
    | context [mapM encodeLinkField ?L] =>
        destruct (mapM encodeLinkField L) as [chunks|] eqn:M; [|discriminate]
    end;
    pose proof (mapM_encodeLinkField links VL M) as F;
    rewrite (decodeNode_encodeNode _ E);
    (eexists; split; [reflexivity|]);
    unfold wireGivesBack; rewrite HD, HL; cbn [truthy elements];
    (split; [reflexivity|]); unfold get; simpl; exact F.
Qed.

(** ** Tsize on the wire is unsigned *)










End Properties.

(** * The properties on concrete inputs *)

Module Examples.

Import ToyCID.

Lemma toy_cidRoundTrips : cidRoundTrips.
Proof. intros c. reflexivity. Qed.

(** The wire bytes of a node with one link: the link message (field 2),
    in it the Hash (field 1) and the Tsize 300 (field 3, varint). *)
Example encode_tsizeNode_300 :
  encode (tsizeNode cidA 300)
  = Ok [x12; x08; x0a; x03; x01; x70; x00; x18; xac; x02].
Proof. reflexivity. Qed.

Example decode_wire_300 :
  decode [x12; x08; x0a; x03; x01; x70; x00; x18; xac; x02]
  = Ok (tsizeNode cidA 300).
Proof. reflexivity. Qed.

(** [prepare] sorts the links and turns Hash bytes into a content
    identifier. *)
Example prepare_inputBA :
  prepare inputBA = Ok (VObj [("Links", VArr [linkA; linkB])]).
Proof. reflexivity. Qed.

(** The link with Tsize -5 is not written. *)
Example encode_minus5_refused :
  encode (tsizeNode cidA (-5)) = Throw (Error "Tsize cannot be negative").
Proof. reflexivity. Qed.

(** What the wire parser reads from the bytes of [nodeRT]: the records of
    the two links, with the Hash as bytes, then the Data. *)
Example decodeNode_bytesRT :
  encode nodeRT = Ok bytesRT
  /\ decodeNode bytesRT
     = Ok (VObj [("Data", VBytes [x61; x62]);
                 ("Links",
                  VArr [VObj [("Hash", VBytes (CID_bytes cidA)); ("Name", VStr "a");
                              ("Tsize", VNum (inject_Z 300))];
                        VObj [("Hash", VBytes (CID_bytes cidB));
                              ("Name", VStr "b")]])]).
Proof. split; reflexivity. Qed.

(** Witness of C3: "a" sorts before "ab". *)
Lemma linkComparator_bytewise_lexicographic_witness :
  linkComparator linkA linkAB = -1.
Proof.
  assert (Ha : nameTyped linkA) by (right; eexists; reflexivity).
  assert (Hb : nameTyped linkAB) by (right; eexists; reflexivity).
  destruct (@linkComparator_bytewise_lexicographic lib linkA linkAB Ha Hb)
    as [_ [_ [_ [_ [_ H]]]]].
  apply H; reflexivity.
Defined.

(** Witness of C2: the node with links "b", "a" is rejected. *)
Lemma canonical_order_enforced_witness :
  isFormError (validate nodeBA) /\ isFormError (encode nodeBA).
Proof.
  destruct (@canonical_order_enforced lib linkB linkA eq_refl eq_refl) as [H _].
  apply H. reflexivity.
Defined.

(** Witness of C5: a link with no Hash. *)
Lemma hash_required_witness :
  isFormError (validate nodeNoHash) /\ isFormError (prepare nodeNoHash).
Proof.
  destruct (@hash_required lib nodeNoHash linkNoHash) as [V [P _]].
  - simpl. left. reflexivity.
  - split; [apply V | apply P]; left; reflexivity.
Defined.

(** Counterexample to C4 as stated: [prepare] of the empty byte sequence
    has a Data field. *)
Lemma prepare_empty_bytes_keeps_data :
  ~ (exists out : JsVal, prepare (VBytes []) = Ok out /\ get out "Data" = VUndefined).
Proof.
  intros [out [E D]]. vm_compute in E. inversion E; subst. discriminate D.
Qed.

(** Witness of C4 as amended: the Data of the record is the empty string. *)
Lemma prepare_empty_data_witness :
  get (VObj [("Links", VArr [])]) "Data" = VUndefined.
Proof.
  destruct (@prepare_empty_data lib) as [H _].
  apply (H [("Data", VStr "")] (VObj [("Links", VArr [])])).
  - right. reflexivity.
  - reflexivity.
Defined.

(** Witness of C7: two links given as "b", "a" come out in canonical
    order. *)
Lemma prepare_links_canonical_witness :
  ~ exists j, decreasingAt [linkA; linkB] j.
Proof.
  destruct (@prepare_links_canonical lib inputBA
              (VObj [("Links", VArr [linkA; linkB])]) eq_refl) as [H _].
  exact H.
Defined.

(** Witness of C8: a link whose Hash bytes are empty. *)
Lemma decode_rejects_malformed_hash_witness :
  exists msg, decode wireBadHash = Throw (Error msg).
Proof.
  destruct (@decode_rejects_malformed_hash lib wireBadHash) as [H _].
  apply (H (VObj [("Links", VArr [VObj [("Hash", VBytes [])]])])
           (VObj [("Hash", VBytes [])]) []).
  - reflexivity.
  - left. reflexivity.
  - reflexivity.
  - reflexivity.
Defined.

(** Witness of C9: a link with no field at all. *)
Lemma decode_requires_hash_witness :
  exists msg, decode wireNoHash = Throw (Error msg).
Proof.
  destruct (@decode_requires_hash lib wireNoHash) as [H _].
  apply (H (VObj [("Links", VArr [VObj []])]) (VObj [])).
  - reflexivity.
  - left. reflexivity.
  - reflexivity.
Defined.

(** Witness of C10. *)
Lemma prepare_output_may_be_invalid_witness :
  exists input out : JsVal,
    prepare input = Ok out
    /\ get (nth 0 (elements (get out "Links")) VUndefined) "Tsize" = VNum (3 # 2)
    /\ isFormError (validate out).
Proof.
  destruct (@prepare_output_may_be_invalid lib cidA) as [_ H]. exact H.
Defined.





End Examples.

(** * Further properties of the module *)

Section FurtherProperties.

Context {cidlib : ContentIdentifier}.

(** ** The comparator is the lexicographic order *)

Lemma scan_cases (abuf bbuf : list byte) (n i : nat) :
  (forall X Y, scan abuf bbuf n i X Y = (X, Y))
  \/ (exists p q, p <> q /\ forall X Y, scan abuf bbuf n i X Y = (p, q)).
Proof.
  revert i; induction n as [|n IH]; intros i; simpl; [now left|].
  destruct (N.eqb_spec (byteAt abuf i) (byteAt bbuf i)) as [E|E]; simpl.
  - apply IH.
  - right. exists (byteAt abuf i), (byteAt bbuf i). now split.
Qed.

Lemma sign_succ (x y : nat) :
  sign (N.of_nat (S x)) (N.of_nat (S y)) = sign (N.of_nat x) (N.of_nat y).
Proof.
  unfold sign.
  destruct (N.ltb_spec (N.of_nat (S x)) (N.of_nat (S y))),
           (N.ltb_spec (N.of_nat x) (N.of_nat y)); try lia;
  destruct (N.ltb_spec (N.of_nat (S y)) (N.of_nat (S x))),
           (N.ltb_spec (N.of_nat y) (N.of_nat x)); try lia; reflexivity.
Qed.

Lemma scan_lexCompare (abuf bbuf : list byte) :
  (let '(x, y) := scan abuf bbuf
                    (Nat.min (List.length abuf) (List.length bbuf)) 0
                    (N.of_nat (List.length abuf)) (N.of_nat (List.length bbuf)) in
   sign x y) = lexCompare abuf bbuf.
Proof.
  revert bbuf; induction abuf as [|x abuf IH]; intros [|y bbuf]; try reflexivity.
  cbn [List.length Nat.min scan lexCompare].
  unfold byteAt at 1 2 3 4; cbn [nth].
  destruct (N.eqb_spec (Byte.to_N x) (Byte.to_N y)) as [E|E]; cbn [negb].
  - rewrite scan_cons, <- IH.
    destruct (scan_cases abuf bbuf (Nat.min (List.length abuf) (List.length bbuf)) 0)
      as [H|[p [q [_ H]]]]; rewrite !H; [apply sign_succ | reflexivity].
  - reflexivity.
Qed.

Lemma linkComparator_lexCompare (a b : JsVal) :
  linkComparator a b = lexCompare (nameBuf a) (nameBuf b).
Proof. rewrite linkComparator_unfold. apply scan_lexCompare. Qed.

Lemma lexCompare_zero (a b : list byte) : lexCompare a b = 0 <-> a = b.
Proof.
  revert b; induction a as [|x a IH]; intros [|y b]; simpl;
    try (split; [discriminate|discriminate]); [tauto|].
  destruct (N.eqb_spec (Byte.to_N x) (Byte.to_N y)) as [E|E].
  - apply to_N_inj in E. subst y. rewrite IH. split; [now intros ->|].
    intros H; now inversion H.
  - split.
    + unfold sign. destruct (N.ltb_spec (Byte.to_N x) (Byte.to_N y)); [discriminate|].
      destruct (N.ltb_spec (Byte.to_N y) (Byte.to_N x)); [discriminate|]. lia.
    + intros H; inversion H; subst. now elim E.
Qed.

Lemma lexCompare_trans (a b c : list byte) :
  lexCompare a b <= 0 -> lexCompare b c <= 0 -> lexCompare a c <= 0.
Proof.
  revert b c; induction a as [|x a IH]; intros [|y b] [|z c]; simpl; try lia.
  unfold sign.
  destruct (N.eqb_spec (Byte.to_N x) (Byte.to_N y)) as [Exy|Exy];
    destruct (N.eqb_spec (Byte.to_N y) (Byte.to_N z)) as [Eyz|Eyz];
    destruct (N.eqb_spec (Byte.to_N x) (Byte.to_N z)) as [Exz|Exz];
    try (apply IH);
    repeat match goal with
           | |- context [(?p <? ?q)%N] => destruct (N.ltb_spec p q)
           end; try lia; intros; lia.
Qed.

(** X1. [linkComparator] is a total preorder on links: a link compares
    equal to itself, swapping the arguments negates the result, and the
    relation "does not sort after" is transitive, which is what makes
    sorting with it well defined. *)
Theorem linkComparator_total_preorder (a b c : JsVal) :
  linkComparator a a = 0
  /\ linkComparator b a = - linkComparator a b
  /\ (linkComparator a b <= 0 -> linkComparator b c <= 0 ->
      linkComparator a c <= 0)
  /\ (linkComparator a b = -1 -> linkComparator b c = -1 ->
      linkComparator a c = -1).
Proof.
  split; [now apply linkComparator_same|].
  split; [apply linkComparator_antisym|].
  assert (T : forall u v w, linkComparator u v <= 0 -> linkComparator v w <= 0 ->
                            linkComparator u w <= 0).
  { intros u v w. rewrite !linkComparator_lexCompare. apply lexCompare_trans. }
  split; [apply T|].
  intros Hab Hbc.
  assert (Hac : linkComparator a c <= 0) by (apply (T a b c); lia).
  destruct (linkComparator_range a c) as [H|[H|H]]; [assumption| |lia].
  exfalso.
  assert (Hca : linkComparator c a <= 0) by (rewrite linkComparator_antisym; lia).
  pose proof (T c a b Hca ltac:(lia)) as Hcb.
  rewrite (linkComparator_antisym b c) in Hcb. lia.
Qed.

(** X2. Two links whose Names are absent or strings compare equal exactly
    when the UTF-8 encodings of their Names are the same bytes, an absent
    Name counting as the empty string. *)
Theorem linkComparator_zero_iff (a b : JsVal) :
  nameTyped a -> nameTyped b ->
  (linkComparator a b = 0 <-> utf8Name a = utf8Name b).
Proof.
  intros Ha Hb.
  rewrite <- (nameBuf_utf8 Ha), <- (nameBuf_utf8 Hb).
  rewrite linkComparator_lexCompare. apply lexCompare_zero.
Qed.

(** ** The validator, in full *)

Lemma includes_In (ps : list string) (k : string) :
  includes ps k = true <-> In k ps.
Proof.
  unfold includes. rewrite existsb_exists. split.
  - intros [q [Hq E]]. apply String.eqb_eq in E. now subst.
  - intros H. exists k. split; [assumption|apply String.eqb_refl].
Qed.

(** X3. For an object that is not null (a plain object, an array or a
    byte sequence; a content identifier, whose own keys are those of its
    class, is set aside), [hasOnlyProperties(node, properties)] is true
    exactly when every own key of [node] is one of [properties]; for a
    plain object these keys are the names of its properties. *)
Theorem hasOnlyProperties_spec (v : JsVal) (ps : list string) :
  typeof v = "object" -> v <> VNull -> isCID v = false ->
  (hasOnlyProperties v ps = true <-> forall k, In k (keys v) -> In k ps)
  /\ (forall props, v = VObj props ->
        (hasOnlyProperties v ps = true <-> forall k x, In (k, x) props -> In k ps)).
Proof.
  intros _ _ _.
  assert (G : hasOnlyProperties v ps = true <-> forall k, In k (keys v) -> In k ps).
  { unfold hasOnlyProperties. rewrite negb_true_iff. split.
    - intros H k Hk. apply includes_In.
      destruct (includes ps k) eqn:E; [reflexivity|].
      assert (X : existsb (fun p => negb (includes ps p)) (keys v) = true).
      { apply existsb_exists. exists k. split; [assumption|]. now rewrite E. }
      congruence.
    - intros H. destruct (existsb _ (keys v)) eqn:E; [|reflexivity].
      apply existsb_exists in E as [k [Hk N]].
      apply H, includes_In in Hk. rewrite Hk in N. discriminate. }
  split; [exact G|].
  intros props ->. rewrite G. cbn [keys]. split.
  - intros H k x Hin. apply H. apply in_map_iff. now exists (k, x).
  - intros H k Hin. apply in_map_iff in Hin. destruct Hin as [[k' x] [<- Hin]].
    now apply H with (x := x).
Qed.

Lemma hasOnlyProperties_iff (v : JsVal) (ps : list string) :
  hasOnlyProperties v ps = true <-> forall k, In k (keys v) -> In k ps.
Proof.
  unfold hasOnlyProperties. rewrite negb_true_iff. split.
  - intros H k Hk. apply includes_In.
    destruct (includes ps k) eqn:E; [reflexivity|].
    assert (X : existsb (fun p => negb (includes ps p)) (keys v) = true).
    { apply existsb_exists. exists k. split; [assumption|]. now rewrite E. }
    congruence.
  - intros H. destruct (existsb _ (keys v)) eqn:E; [|reflexivity].
    apply existsb_exists in E as [k [Hk N]].
    apply H, includes_In in Hk. rewrite Hk in N. discriminate.
Qed.

Lemma validateLink_validLink (l : JsVal) :
  validateLink l = Ok tt <-> validLink l.
Proof.
  split.
  - intros V. destruct (validateLink_fields _ V) as [HH [HN HT]].
    unfold validateLink in V.
    destruct (negb (truthy l) || _ || isArray l) eqn:C1; [discriminate|].
    destruct (hasOnlyProperties l pbLinkProperties) eqn:C2; [|discriminate].
    repeat split; try assumption.
    + destruct HH as [c HH]. destruct l; try discriminate HH. eauto.
    + now apply hasOnlyProperties_iff.
  - intros [[props ->] [K [[c HH] [HN HT]]]].
    apply hasOnlyProperties_iff in K.
    unfold validateLink. cbn [truthy typeof String.eqb Ascii.eqb Bool.eqb negb orb isArray].
    simpl (negb _ || _ || _). rewrite K, HH. simpl.
    destruct HN as [HN|[s HN]]; rewrite HN; simpl;
      (destruct HT as [HT|[q [HT Hm]]]; rewrite HT; simpl; [reflexivity|]);
      unfold mod1; rewrite Hm; reflexivity.
Qed.

Lemma nodeChecks_iff (node : JsVal) :
  nodeChecks node = true <->
  (exists props, node = VObj props)
  /\ (forall k, In k (keys node) -> In k pbNodeProperties)
  /\ (get node "Data" = VUndefined \/ exists d, get node "Data" = VBytes d)
  /\ exists links, get node "Links" = VArr links.
Proof.
  split.
  - intros NC. destruct (nodeChecks_fields _ NC) as [[links HL] HD].
    unfold nodeChecks in NC.
    apply andb_prop in NC as [NC _]. apply andb_prop in NC as [NC _].
    apply andb_prop in NC as [_ K].
    repeat split; try assumption.
    + destruct node; try discriminate HL. eauto.
    + now apply hasOnlyProperties_iff.
    + eauto.
  - intros [[props ->] [K [HD [links HL]]]].
    apply hasOnlyProperties_iff in K. unfold nodeChecks.
    simpl (negb (negb _ || _ || _)). rewrite K, HL.
    destruct HD as [HD|[d HD]]; rewrite HD; reflexivity.
Qed.

(** X4. [validate] accepts exactly the nodes of the required form: a plain
    object with no property but Data and Links, Data absent or a byte
    sequence, Links an array of plain objects with no property but Hash,
    Name and Tsize, each with a content identifier as Hash, a Name absent
    or a string and a Tsize absent or an integer, no link comparing as
    strictly before its predecessor. *)
Theorem validate_accepts_exactly (node : JsVal) :
  validate node = Ok tt <-> validNode node.
Proof.
  rewrite validate_ok, nodeChecks_iff. unfold validNode. split.
  - intros [[P [K [D [links HL]]]] [W O]].
    repeat split; try assumption. exists links. rewrite HL in W, O; simpl in W, O.
    split; [exact HL|]. split.
    + intros l Hl. apply validateLink_validLink.
      now apply linksWellFormed_In with (links := links).
    + intros j Hj C. apply O. exists j. now split.
  - intros [P [K [D [links [HL [W O]]]]]]. rewrite HL; simpl.
    split; [repeat split; eauto|]. split.
    + intros j Hj. apply validateLink_validLink, W, nth_In, Hj.
    + intros [j [Hj C]]. now apply (O j Hj).
Qed.

(** X5. The errors [validate] raises on the node itself, in the order of
    its checks: a value that is not a non-array object is an invalid form;
    a plain object with a property other than Data and Links has
    extraneous properties, whatever its Data and Links are; with none, a
    Data that is neither absent nor a byte sequence is reported before
    Links is looked at; and then Links must be an array. *)
Theorem validate_node_errors (node : JsVal) :
  (negb (truthy node) || negb (typeof node =? "object")%string || isArray node = true ->
   validate node = Throw (TypeError "Invalid DAG-PB form"))
  /\ (forall props k,
        node = VObj props -> In k (keys node) -> ~ In k pbNodeProperties ->
        validate node = Throw (TypeError "Invalid DAG-PB form (extraneous properties)"))
  /\ (forall props,
        node = VObj props -> hasOnlyProperties node pbNodeProperties = true ->
        get node "Data" <> VUndefined -> isUint8Array (get node "Data") = false ->
        validate node
        = Throw (TypeError "Invalid DAG-PB form (Data must be a Uint8Array)"))
  /\ (forall props,
        node = VObj props -> hasOnlyProperties node pbNodeProperties = true ->
        (get node "Data" = VUndefined \/ isUint8Array (get node "Data") = true) ->
        isArray (get node "Links") = false ->
        validate node
        = Throw (TypeError "Invalid DAG-PB form (Links must be an array)")).
Proof.
  repeat split.
  - intros H. unfold validate. now rewrite H.
  - intros props k -> Hk Hn. unfold validate. simpl (negb _ || _ || _).
    destruct (hasOnlyProperties (VObj props) pbNodeProperties) eqn:E; [|reflexivity].
    elim Hn. now apply (proj1 (hasOnlyProperties_iff _ _) E).
  - intros props -> K D U. unfold validate. simpl (negb _ || _ || _).
    rewrite K, U. destruct (get (VObj props) "Data"); try reflexivity. now elim D.
  - intros props -> K D L. unfold validate. simpl (negb _ || _ || _).
    rewrite K, L. destruct D as [-> | ->]; [reflexivity|].
    now rewrite andb_false_r.
Qed.

Lemma validateLinks_first_error (links : list JsVal) (n : nat) :
  forall i0 i,
    (i0 <= i < i0 + n)%nat ->
    (forall j, (i0 <= j < i)%nat ->
       validateLink (nth j links VUndefined) = Ok tt
       /\ ((0 < j)%nat ->
           linkComparator (nth j links VUndefined) (nth (j - 1) links VUndefined)
           <> -1)) ->
    (forall e, validateLink (nth i links VUndefined) = Throw e ->
               validateLinks links n i0 = Throw e)
    /\ (validateLink (nth i links VUndefined) = Ok tt -> (0 < i)%nat ->
        linkComparator (nth i links VUndefined) (nth (i - 1) links VUndefined) = -1 ->
        validateLinks links n i0
        = Throw (TypeError "Invalid DAG-PB form (links must be sorted by Name bytes)")).
Proof.
  induction n as [|n IH]; intros i0 i Hi Hbefore; [lia|].
  cbn [validateLinks].
  destruct (Nat.eq_dec i0 i) as [->|Hne].
  - split.
    + intros e E. rewrite E. reflexivity.
    + intros E Hpos C. rewrite E. cbn [bind].
      destruct (Nat.ltb_spec 0 i); [|lia]. rewrite C. reflexivity.
  - destruct (Hbefore i0 ltac:(lia)) as [V O]. rewrite V. cbn [bind].
    assert (G : (0 <? i0)%nat
                && (linkComparator (nth i0 links VUndefined)
                      (nth (i0 - 1) links VUndefined) =? -1) = false).
    { destruct (Nat.ltb_spec 0 i0) as [Hp|_]; [|reflexivity].
      simpl. apply Z.eqb_neq. now apply O. }
    rewrite G. apply IH; [lia|]. intros j Hj. apply Hbefore. lia.
Qed.

(** X6. [validate] stops at the first offending link: when the node
    itself is in order and every link before index [i] passes, the
    exception raised is the one of link [i], either the error of the first
    check the link fails by itself or, if it passes them all, the error
    that it sorts strictly before its predecessor. *)
Theorem validate_fail_fast (node : JsVal) (links : list JsVal) (i : nat) :
  nodeChecks node = true -> get node "Links" = VArr links ->
  (i < List.length links)%nat ->
  (forall j, (j < i)%nat ->
     validateLink (nth j links VUndefined) = Ok tt
     /\ ((0 < j)%nat ->
         linkComparator (nth j links VUndefined) (nth (j - 1) links VUndefined)
         <> -1)) ->
  (forall e, validateLink (nth i links VUndefined) = Throw e ->
             validate node = Throw e)
  /\ (validateLink (nth i links VUndefined) = Ok tt -> (0 < i)%nat ->
      linkComparator (nth i links VUndefined) (nth (i - 1) links VUndefined) = -1 ->
      validate node
      = Throw (TypeError "Invalid DAG-PB form (links must be sorted by Name bytes)")).
Proof.
  intros NC HL Hi Hbefore.
  rewrite validate_nodeChecks, NC, HL. simpl elements.
  apply validateLinks_first_error; [lia|]. intros j Hj. apply Hbefore. lia.
Qed.

(** ** encode *)

Lemma encodeLinkObj_sameFields (l m : JsVal) :
  sameFields l m -> encodeLinkObj l = encodeLinkObj m.
Proof.
  intros [H [N T]]. unfold encodeLinkObj. now rewrite H, N, T.
Qed.

(** X7. [encode] is gated by [validate] and reads nothing but the fields:
    it raises the exception of [validate] when there is one, and two nodes
    that both pass [validate] and have the same Data and, link by link, the
    same Hash, Name and Tsize are encoded to the same bytes, whatever the
    order of their properties. *)
Theorem encode_depends_on_fields (n m : JsVal) :
  (forall e, validate n = Throw e -> encode n = Throw e)
  /\ (validate n = Ok tt -> validate m = Ok tt ->
      get n "Data" = get m "Data" ->
      Forall2 sameFields (elements (get n "Links")) (elements (get m "Links")) ->
      encode n = encode m).
Proof.
  split.
  - intros e V. unfold encode. now rewrite V.
  - intros Vn Vm D F. unfold encode. rewrite Vn, Vm. cbn [bind]. rewrite D.
    pose proof Vn as Vn'. pose proof Vm as Vm'.
    rewrite validate_ok in Vn', Vm'.
    destruct Vn' as [NCn _], Vm' as [NCm _].
    destruct (nodeChecks_fields _ NCn) as [[ln Ln] _].
    destruct (nodeChecks_fields _ NCm) as [[lm Lm] _].
    rewrite Ln, Lm in *. simpl in F. cbn [truthy elements].
    assert (E : map encodeLinkObj ln = map encodeLinkObj lm).
    { clear - F. induction F as [|a b la lb Hab F IH]; [reflexivity|].
      simpl. now rewrite (encodeLinkObj_sameFields Hab), IH. }
    now rewrite E.
Qed.

(** ** prepare *)

Lemma asLink_prepared (link out : JsVal) :
  asLink link = Ok out -> preparedLink out.
Proof.
  unfold asLink. intros H.
  destruct link; try discriminate H;
    (destruct (resolveHash _) as [[c|]|e]; simpl in H; try discriminate H;
     exists c; inversion H; clear H;
     destruct (get _ "Name"); simpl;
     destruct (get _ "Tsize"); simpl; eauto 10).
Qed.

Lemma preparedLink_asLink (l : JsVal) : preparedLink l -> asLink l = Ok l.
Proof.
  intros [c [->|[[s ->]|[[q ->]|[s [q ->]]]]]]; reflexivity.
Qed.

Lemma mapM_Forall_out {A B : Type} (f : A -> result B) (P : B -> Prop)
  (l : list A) (ls : list B) :
  (forall a b, f a = Ok b -> P b) -> mapM f l = Ok ls -> Forall P ls.
Proof.
  intros Hf M. apply mapM_Forall2 in M.
  induction M as [|a b la lb Hab M IH]; constructor; eauto.
Qed.

Lemma mapM_fixed {A : Type} (f : A -> result A) (l : list A) :
  Forall (fun a => f a = Ok a) l -> mapM f l = Ok l.
Proof.
  induction 1 as [|a l Ha _ IH]; [reflexivity|].
  simpl. rewrite Ha. simpl. now rewrite IH.
Qed.

Lemma insertBy_perm (cmp : JsVal -> JsVal -> Z) (x : JsVal) (l : list JsVal) :
  Permutation (x :: l) (insertBy cmp x l).
Proof.
  induction l as [|y l IH]; simpl; [reflexivity|].
  destruct (cmp x y <=? 0); [reflexivity|].
  rewrite perm_swap. now constructor.
Qed.

Lemma sortBy_perm (cmp : JsVal -> JsVal -> Z) (l : list JsVal) :
  Permutation l (sortBy cmp l).
Proof.
  induction l as [|x l IH]; simpl; [constructor|].
  rewrite <- insertBy_perm. now constructor.
Qed.

Lemma sortBy_Forall (cmp : JsVal -> JsVal -> Z) (P : JsVal -> Prop) (l : list JsVal) :
  Forall P l -> Forall P (sortBy cmp l).
Proof.
  intros H. apply Forall_forall. intros x Hx.
  apply (Permutation_in _ (Permutation_sym (sortBy_perm cmp l))) in Hx.
  revert x Hx. now apply Forall_forall.
Qed.

Lemma sortBy_sorted_id (l : list JsVal) :
  Sorted notAfter l -> sortBy linkComparator l = l.
Proof.
  induction 1 as [|x l Hs IH Hd]; [reflexivity|].
  simpl. rewrite IH. destruct Hd as [|y l' C]; [reflexivity|].
  simpl. unfold notAfter in C. destruct (Z.leb_spec (linkComparator x y) 0); [reflexivity|lia].
Qed.

Lemma prepare_record (props : list (string * JsVal)) :
  prepare (VObj props) =
  let pbn := match preparedData (get (VObj props) "Data") with
             | VBytes d => [("Data", VBytes d)]
             | _ => []
             end in
  if truthy (get (VObj props) "Links") && isArray (get (VObj props) "Links")
     && negb (List.length (elements (get (VObj props) "Links")) =? 0)%nat
  then links <- mapM asLink (elements (get (VObj props) "Links")) ;;
       Ok (VObj (pbn ++ [("Links", VArr (sortBy linkComparator links))]))
  else Ok (VObj (pbn ++ [("Links", VArr [])])).
Proof.
  unfold prepare. simpl.
  destruct (get (VObj props) "Data") as [| |b|q|s|d|c|l|o]; simpl;
    try reflexivity;
    try (destruct b; reflexivity);
    try (destruct (negb (Qnum q =? 0)); reflexivity);
    try (destruct s; reflexivity).
Qed.

Lemma prepare_shape (node out : JsVal) :
  prepare node = Ok out ->
  exists pbn ls,
    out = VObj (pbn ++ [("Links", VArr ls)])
    /\ (pbn = [] \/ exists d, pbn = [("Data", VBytes d)])
    /\ Forall preparedLink ls /\ Sorted notAfter ls.
Proof.
  intros H.
  assert (R : forall props o, prepare (VObj props) = Ok o ->
              exists pbn ls,
                o = VObj (pbn ++ [("Links", VArr ls)])
                /\ (pbn = [] \/ exists d, pbn = [("Data", VBytes d)])
                /\ Forall preparedLink ls /\ Sorted notAfter ls).
  { intros props o. rewrite prepare_record. cbv zeta.
    set (pbn := match preparedData _ with VBytes d => _ | _ => [] end).
    assert (Hp : pbn = [] \/ exists d, pbn = [("Data", VBytes d)])
      by (subst pbn; destruct (preparedData _); eauto).
    destruct (_ && _ && _).
    - destruct (mapM asLink _) as [ls|] eqn:M; simpl; [|discriminate].
      intros E; inversion E. exists pbn, (sortBy linkComparator ls).
      repeat split; try assumption.
      + apply sortBy_Forall. eapply mapM_Forall_out; [|exact M]. apply asLink_prepared.
      + apply sortBy_sorted.
    - intros E; inversion E. exists pbn, []. repeat split; try assumption; constructor. }
  destruct node; try discriminate H.
  - apply (R [("Data", VBytes (textEncoder_encode (VStr s))); ("Links", VArr [])]).
    exact H.
  - apply (R [("Data", VBytes b); ("Links", VArr [])]). exact H.
  - inversion H. exists [], []. repeat split; repeat constructor.
  - now apply R with (props := props).
Qed.

(** X8. [prepare] is idempotent: a node [prepare] returned is returned
    unchanged when given to [prepare] again. *)
Theorem prepare_idempotent (node out : JsVal) :
  prepare node = Ok out -> prepare out = Ok out.
Proof.
  intros H. destruct (prepare_shape _ H) as [pbn [ls [-> [Hp [Hl Hs]]]]].
  rewrite prepare_record. cbv zeta.
  assert (D : match preparedData (get (VObj (pbn ++ [("Links", VArr ls)])) "Data") with
              | VBytes d => [("Data", VBytes d)]
              | _ => []
              end = pbn)
    by (destruct Hp as [->|[d ->]]; reflexivity).
  assert (L : get (VObj (pbn ++ [("Links", VArr ls)])) "Links" = VArr ls)
    by (destruct Hp as [->|[d ->]]; reflexivity).
  rewrite D, L. simpl.
  destruct ls as [|l ls]; [reflexivity|]. simpl negb. cbv iota.
  rewrite mapM_fixed.
  - cbn [bind]. now rewrite sortBy_sorted_id.
  - eapply Forall_impl; [|exact Hl]. apply preparedLink_asLink.
Qed.

Lemma preparedLink_validateLink (l : JsVal) :
  preparedLink l -> (validateLink l = Ok tt <-> tsizeIntegral l).
Proof.
  intros [c [->|[[s ->]|[[q ->]|[s [q ->]]]]]]; unfold tsizeIntegral, validateLink, get;
    simpl; split; intros H; try reflexivity; try (now left);
    try (right; destruct (mod1 q =? 0); [reflexivity|discriminate]);
    try (destruct H as [H|H]; [discriminate|]; now rewrite H).
Qed.

(** X9. What [prepare] returns passes [validate] exactly when every Tsize
    it kept is an integer: a Tsize with a fractional part is the only
    thing [prepare] lets through that [validate] rejects. *)
Theorem prepare_valid_iff (node out : JsVal) :
  prepare node = Ok out ->
  (validate out = Ok tt
   <-> forall l, In l (elements (get out "Links")) -> tsizeIntegral l).
Proof.
  intros H.
  destruct (prepare_shape _ H) as [pbn [ls [-> [Hp [Hl Hs]]]]].
  assert (L : get (VObj (pbn ++ [("Links", VArr ls)])) "Links" = VArr ls)
    by (destruct Hp as [->|[d ->]]; reflexivity).
  assert (NC : nodeChecks (VObj (pbn ++ [("Links", VArr ls)])) = true)
    by (destruct Hp as [->|[d ->]]; reflexivity).
  rewrite validate_ok, L. simpl elements. rewrite Forall_forall in Hl. split.
  - intros [_ [W _]] l Hl'. apply preparedLink_validateLink; [now apply Hl|].
    now apply linksWellFormed_In with (links := ls).
  - intros T. split; [exact NC|]. split.
    + intros j Hj. apply preparedLink_validateLink;
        [apply Hl | apply T]; now apply nth_In.
    + now apply sorted_not_decreasing.
Qed.

(** X10. [prepare] neither drops nor repeats a link: the Links it returns
    are a rearrangement of what [asLink] made of the links given, one for
    one. *)
Theorem prepare_links_permutation (node out : JsVal) (links : list JsVal) :
  get node "Links" = VArr links -> prepare node = Ok out ->
  exists ls, mapM asLink links = Ok ls
             /\ Permutation ls (elements (get out "Links"))
             /\ List.length (elements (get out "Links")) = List.length links.
Proof.
  intros HL H. destruct links as [|l links].
  - exists []. split; [reflexivity|].
    destruct (prepare_ok_links _ H) as [[E _]|[ls [_ [_ N]]]]; [|contradiction].
    rewrite E. now split.
  - destruct (prepare_links _ HL ltac:(discriminate)) as [pbn E].
    rewrite E in H.
    destruct (mapM asLink (l :: links)) as [ls|] eqn:M; simpl in H; [|discriminate].
    exists ls. split; [reflexivity|]. inversion H. rewrite get_setProp_same. simpl.
    split; [apply sortBy_perm|].
    rewrite <- (Permutation_length (sortBy_perm linkComparator ls)).
    apply mapM_Forall2 in M. symmetry. exact (Forall2_length M).
Qed.

(** X11. What [prepare] does with Data: bytes or text given as the whole
    input become the Data of a node with no links; in a record, a non-empty
    string is replaced by its UTF-8 bytes, a byte sequence is kept, and
    anything else (a number, an array, an object) is dropped without an
    error. *)
Theorem prepare_data_normalization :
  (forall b, prepare (VBytes b)
             = Ok (VObj [("Data", VBytes b); ("Links", VArr [])]))
  /\ (forall s, prepare (VStr s)
                = Ok (VObj [("Data", VBytes (list_byte_of_string s));
                            ("Links", VArr [])]))
  /\ (forall props out,
        prepare (VObj props) = Ok out ->
        get out "Data" = preparedData (get (VObj props) "Data")).
Proof.
  split; [reflexivity|]. split; [reflexivity|].
  intros props out. rewrite prepare_record. cbv zeta.
  assert (G : forall v,
            get (VObj ((match preparedData (get (VObj props) "Data") with
                        | VBytes d => [("Data", VBytes d)]
                        | _ => []
                        end) ++ [("Links", v)])) "Data"
            = preparedData (get (VObj props) "Data")).
  { intros v. destruct (get (VObj props) "Data") as [| |b|q|s|d|c|l|o];
      try reflexivity. simpl. destruct (s =? "")%string; reflexivity. }
  destruct (_ && _ && _).
  - destruct (mapM asLink _); simpl; [|discriminate].
    intros E; inversion E. apply G.
  - intros E; inversion E. apply G.
Qed.

Lemma prepare_error (node : JsVal) (e : exn) :
  prepare node = Throw e -> exists msg, e = TypeError msg.
Proof.
  assert (R : forall props, prepare (VObj props) = Throw e ->
                            exists msg, e = TypeError msg).
  { intros props. rewrite prepare_record. cbv zeta.
    destruct (_ && _ && _); [|discriminate].
    destruct (mapM asLink _) eqn:M; simpl; [discriminate|].
    intros E; inversion E; subst.
    exact (mapM_error asLink (fun e => exists msg, e = TypeError msg) _ asLink_error M). }
  destruct node; try discriminate; try apply R;
    intros H; inversion H; eauto.
Qed.

(** X12. [prepare] is lenient about Links and raises nothing but form
    errors: every exception it raises is a [TypeError]; a value that is
    neither bytes, text nor a non-array object is rejected; and a record
    whose Links is absent, empty or not an array at all is accepted, with
    the empty sequence for Links. *)
Theorem prepare_leniency_and_errors (node : JsVal) :
  (forall e, prepare node = Throw e -> exists msg, e = TypeError msg)
  /\ (negb (typeof node =? "object")%string || isArray node = true ->
      isUint8Array node = false -> (typeof node =? "string")%string = false ->
      prepare node = Throw (TypeError "Invalid DAG-PB form"))
  /\ (forall props,
        node = VObj props ->
        (forall l ls, get node "Links" <> VArr (l :: ls)) ->
        exists out, prepare node = Ok out /\ get out "Links" = VArr []).
Proof.
  split; [apply prepare_error|]. split.
  - intros H U S. unfold prepare. rewrite U, S, H. reflexivity.
  - intros props -> HL. rewrite prepare_record. cbv zeta.
    assert (C : truthy (get (VObj props) "Links") && isArray (get (VObj props) "Links")
                && negb (List.length (elements (get (VObj props) "Links")) =? 0)%nat
                = false).
    { destruct (get (VObj props) "Links") as [| | | | | | |ls|] eqn:E;
        try reflexivity; try (simpl; now rewrite andb_false_r).
      destruct ls as [|l ls]; [reflexivity|]. now elim (HL l ls). }
    rewrite C. eexists. split; [reflexivity|].
    destruct (preparedData _); reflexivity.
Qed.

(** X13. What [asLink] returns: an object with a content identifier as
    Hash and no property but Hash, Name and Tsize; the Name of the input
    is copied only if it is a string and its Tsize only if it is a number,
    anything else being dropped without an error, like every other property
    of the input. *)
Theorem asLink_output (link out : JsVal) :
  asLink link = Ok out ->
  hasOnlyProperties out pbLinkProperties = true
  /\ (exists c, resolveHash (get link "Hash") = Ok (Some c)
                /\ get out "Hash" = VCid c)
  /\ get out "Name" = (if (typeof (get link "Name") =? "string")%string
                       then get link "Name" else VUndefined)
  /\ get out "Tsize" = (if (typeof (get link "Tsize") =? "number")%string
                        then get link "Tsize" else VUndefined).
Proof.
  intros H. split.
  - destruct (asLink_prepared _ H) as [c [->|[[s ->]|[[q ->]|[s [q ->]]]]]];
      reflexivity.
  - unfold asLink in H.
    destruct link; try discriminate H;
      (destruct (resolveHash _) as [[c|]|e] eqn:R; simpl in H; try discriminate H;
       inversion H; clear H;
       split; [exists c; split; [reflexivity|];
               destruct (typeof (get _ "Name") =? "string")%string;
               destruct (typeof (get _ "Tsize") =? "number")%string; reflexivity|];
       split;
       [destruct (typeof (get _ "Name") =? "string")%string;
        destruct (typeof (get _ "Tsize") =? "number")%string;
        repeat (rewrite get_setProp_other by discriminate);
        try (rewrite get_setProp_same); reflexivity
       |destruct (typeof (get _ "Tsize") =? "number")%string;
        [apply get_setProp_same|];
        destruct (typeof (get _ "Name") =? "string")%string; reflexivity]).
Qed.

(** ** decode *)

Lemma decodeLinkObj_fields (w l : JsVal) :
  decodeLinkObj w = Ok l ->
  (exists c, tryDecodeCID (get w "Hash") = Some c /\ get l "Hash" = VCid c)
  /\ get l "Name" = get w "Name"
  /\ get l "Tsize" = get w "Tsize"
  /\ hasOnlyProperties l pbLinkProperties = true.
Proof.
  unfold decodeLinkObj.
  destruct (tryDecodeCID (get w "Hash")) as [c|]; [|discriminate].
  intros H; inversion H; clear H.
  destruct (get w "Name") eqn:N; destruct (get w "Tsize") eqn:T; simpl;
    (split; [exists c; split; reflexivity|]); repeat split; reflexivity.
Qed.

Lemma decode_links (bytes : list byte) (pbn out : JsVal) :
  decodeNode bytes = Ok pbn -> decode bytes = Ok out ->
  (get out "Data" = if truthy (get pbn "Data") then get pbn "Data" else VUndefined)
  /\ hasOnlyProperties out pbNodeProperties = true
  /\ exists ls, get out "Links" = VArr ls
       /\ mapM decodeLinkObj (elements (get pbn "Links")) = Ok ls.
Proof.
  intros D H. destruct (decodeNode_shape _ D) as [wl [L _]].
  unfold decode in H. rewrite D in H. cbn [bind] in H. rewrite L in H.
  cbn [truthy elements] in H.
  destruct (mapM decodeLinkObj wl) as [ls|] eqn:M; simpl in H; [|discriminate].
  inversion H; clear H. rewrite L. simpl elements.
  destruct (truthy (get pbn "Data")); simpl;
    (split; [reflexivity|]); (split; [reflexivity|]); exists ls; now split.
Qed.

(** X14. [decode] copies what the wire holds: the Data of the decoded
    record if it has one, else no Data, and link by link, in order, the
    content identifier read from the Hash bytes, the Name and the Tsize
    (each absent when absent on the wire); the node and the links it
    builds have no other property. *)
Theorem decode_copies_fields (bytes : list byte) (pbn out : JsVal) :
  decodeNode bytes = Ok pbn -> decode bytes = Ok out ->
  (get out "Data" = if truthy (get pbn "Data") then get pbn "Data" else VUndefined)
  /\ hasOnlyProperties out pbNodeProperties = true
  /\ Forall2 (fun w l =>
                (exists c, tryDecodeCID (get w "Hash") = Some c
                           /\ get l "Hash" = VCid c)
                /\ get l "Name" = get w "Name"
                /\ get l "Tsize" = get w "Tsize"
                /\ hasOnlyProperties l pbLinkProperties = true)
             (elements (get pbn "Links")) (elements (get out "Links")).
Proof.
  intros D H. destruct (decode_links _ D H) as [HD [K [ls [L M]]]].
  split; [exact HD|]. split; [exact K|]. rewrite L. simpl.
  apply mapM_Forall2 in M. clear - M.
  induction M as [|w l wl' ls' Hwl M IH]; [constructor|].
  constructor; [|exact IH]. now apply decodeLinkObj_fields.
Qed.

Lemma mapM_all_ok {A B : Type} (f : A -> result B) (l : list A) :
  (forall a, In a l -> exists b, f a = Ok b) -> exists ls, mapM f l = Ok ls.
Proof.
  induction l as [|a l IH]; intros H; [now exists []|].
  destruct (H a (or_introl eq_refl)) as [b Hb].
  destruct IH as [ls Hls]; [intros x Hx; apply H; now right|].
  exists (b :: ls). simpl. rewrite Hb. simpl. now rewrite Hls.
Qed.

(** X15. [decode] succeeds exactly when the CID library reads the Hash of
    every link of the decoded record: nothing else about the links (their
    order, their Names, their Tsize) can make it fail. *)
Theorem decode_succeeds_iff (bytes : list byte) (pbn : JsVal) :
  decodeNode bytes = Ok pbn ->
  ((exists out, decode bytes = Ok out)
   <-> forall w, In w (elements (get pbn "Links")) ->
                 exists c, tryDecodeCID (get w "Hash") = Some c).
Proof.
  intros D. split.
  - intros [out H] w Hw. destruct (decode_links _ D H) as [_ [_ [ls [_ M]]]].
    apply mapM_Forall2 in M. clear - M Hw.
    induction M as [|a b la lb Hab M IH]; [contradiction|].
    destruct Hw as [->|Hw]; [|now apply IH].
    destruct (decodeLinkObj_fields _ Hab) as [[c [Hc _]] _]. now exists c.
  - intros Hall. destruct (decodeNode_shape _ D) as [wl [L _]].
    destruct (decode_unfold _ D L) as [node E]. rewrite E. rewrite L in Hall.
    destruct (@mapM_all_ok _ _ decodeLinkObj wl) as [ls M].
    + intros w Hw. destruct (Hall w Hw) as [c Hc].
      unfold decodeLinkObj. rewrite Hc. eexists. reflexivity.
    + rewrite M. eexists. reflexivity.
Qed.

(** X16. [decode] does not check the canonical order: when the decoded
    record holds a link named "b" followed by a link named "a", both with
    a Hash the CID library reads, [decode] returns a node that [validate]
    and [encode] reject. *)
Theorem decode_does_not_validate (bytes : list byte) (pbn wb wa : JsVal) :
  decodeNode bytes = Ok pbn -> get pbn "Links" = VArr [wb; wa] ->
  (exists c, tryDecodeCID (get wb "Hash") = Some c) -> get wb "Name" = VStr "b" ->
  (exists c, tryDecodeCID (get wa "Hash") = Some c) -> get wa "Name" = VStr "a" ->
  exists out, decode bytes = Ok out
              /\ isFormError (validate out) /\ isFormError (encode out).
Proof.
  intros D L [cb Hb] Nb [ca Ha] Na.
  destruct (decode_unfold _ D L) as [node E].
  destruct (decodeLinkObj wb) as [lb|] eqn:Eb;
    [|unfold decodeLinkObj in Eb; rewrite Hb in Eb; discriminate].
  destruct (decodeLinkObj wa) as [la|] eqn:Ea;
    [|unfold decodeLinkObj in Ea; rewrite Ha in Ea; discriminate].
  rewrite E. cbn [mapM]. rewrite Eb, Ea. cbn [bind].
  eexists. split; [reflexivity|].
  destruct (decodeLinkObj_fields _ Eb) as [_ [Nb' _]].
  destruct (decodeLinkObj_fields _ Ea) as [_ [Na' _]].
  rewrite Nb in Nb'. rewrite Na in Na'.
  destruct (linkComparator_a_b _ _ Na' Nb') as [Cab _].
  assert (V : isFormError (validate (VObj (setProp "Links" (VArr [lb; la]) node)))).
  { apply validate_not_ok. rewrite validate_ok, get_setProp_same.
    intros [_ [_ Dn]]. apply Dn. exists 1%nat. split; [simpl; lia|exact Cab]. }
  split; [exact V | now apply encode_validate_error].
Qed.

(** ** Encoding what was decoded *)

Lemma Qeq_div (p q : Q) :
  Qeq p q -> Qnum p / Zpos (Qden p) = Qnum q / Zpos (Qden q).
Proof.
  unfold Qeq. intros E.
  rewrite <- (Z.div_mul_cancel_r (Qnum p) (Zpos (Qden p)) (Zpos (Qden q)))
    by discriminate.
  rewrite E, (Z.mul_comm (Zpos (Qden p)) (Zpos (Qden q))).
  apply Z.div_mul_cancel_r; discriminate.
Qed.

Lemma Qeq_integer (p q : Q) : Qeq p q -> mod1 q = 0 -> mod1 p = 0.
Proof.
  unfold Qeq, mod1. intros E Hq.
  apply Z.rem_divide in Hq; [|discriminate]. destruct Hq as [t Ht].
  apply Z.rem_divide; [discriminate|]. exists t.
  rewrite Ht in E.
  apply (Z.mul_cancel_r _ _ (Zpos (Qden q))); [discriminate|]. lia.
Qed.

Lemma sameValue_tsizeToWire (v w : JsVal) :
  sameValue v w ->
  match v with
  | VNum q =>
      match tsizeToWire q with
      | Some n => Ok (x18 :: encodeVarint n)
      | None => Throw (Error "Tsize cannot be negative")
      end
  | _ => Ok []
  end
  = match w with
    | VNum q =>
        match tsizeToWire q with
        | Some n => Ok (x18 :: encodeVarint n)
        | None => Throw (Error "Tsize cannot be negative")
        end
    | _ => Ok []
    end.
Proof.
  destruct v, w; simpl; try (intros H; now inversion H); try reflexivity; try discriminate.
  intros E. unfold tsizeToWire. apply Qeq_div in E. now rewrite E.
Qed.

Lemma get_encodeLinkObj (l : JsVal) :
  get (encodeLinkObj l) "Hash"
  = (if truthy (get l "Hash") then bytesOf (get l "Hash") else VUndefined)
  /\ get (encodeLinkObj l) "Name" = get l "Name"
  /\ get (encodeLinkObj l) "Tsize" = get l "Tsize".
Proof.
  unfold encodeLinkObj.
  destruct (truthy (get l "Hash"));
    destruct (get l "Name") eqn:N; destruct (get l "Tsize") eqn:T; simpl;
    repeat split; reflexivity.
Qed.

Lemma encodeLink_sameLink (l m : JsVal) :
  sameLink l m -> encodeLink (encodeLinkObj l) = encodeLink (encodeLinkObj m).
Proof.
  intros [H [N T]]. unfold encodeLink.
  destruct (get_encodeLinkObj l) as [-> [-> ->]].
  destruct (get_encodeLinkObj m) as [-> [-> ->]].
  rewrite H, N. apply sameValue_tsizeToWire in T. now rewrite T.
Qed.

Lemma encode_structurallyEqual (n m : JsVal) :
  validate n = Ok tt -> validate m = Ok tt -> structurallyEqual n m ->
  encode n = encode m.
Proof.
  intros Vn Vm [D F]. unfold encode. rewrite Vn, Vm. cbn [bind]. rewrite D.
  pose proof Vn as Vn'. pose proof Vm as Vm'. rewrite validate_ok in Vn', Vm'.
  destruct Vn' as [NCn _], Vm' as [NCm _].
  destruct (nodeChecks_fields _ NCn) as [[ln Ln] _].
  destruct (nodeChecks_fields _ NCm) as [[lm Lm] _].
  rewrite Ln, Lm in *. simpl in F. cbn [truthy elements].
  assert (E : mapM encodeLinkField (map encodeLinkObj ln)
              = mapM encodeLinkField (map encodeLinkObj lm)).
  { clear - F. induction F as [|a b la lb Hab F IH]; [reflexivity|].
    cbn [map mapM]. unfold encodeLinkField at 1 3.
    apply encodeLink_sameLink in Hab. now rewrite Hab, IH. }
  destruct (truthy (get m "Data")); unfold encodeNode;
    rewrite ?get_setProp_same, ?get_setProp_other by discriminate;
    rewrite ?get_setProp_same; cbn [elements]; now rewrite E.
Qed.

Lemma linkComparator_names (a a' b b' : JsVal) :
  get a "Name" = get a' "Name" -> get b "Name" = get b' "Name" ->
  linkComparator a b = linkComparator a' b'.
Proof.
  intros Ea Eb. rewrite !linkComparator_unfold. unfold nameBuf. now rewrite Ea, Eb.
Qed.

Lemma decodeLinkObj_object (w l : JsVal) :
  decodeLinkObj w = Ok l -> exists props, l = VObj props.
Proof.
  unfold decodeLinkObj. destruct (tryDecodeCID _); [|discriminate].
  intros H; inversion H. eauto.
Qed.

Lemma decode_object (bytes : list byte) (out : JsVal) :
  decode bytes = Ok out ->
  (exists props, out = VObj props)
  /\ forall l, In l (elements (get out "Links")) ->
               (exists props, l = VObj props)
               /\ hasOnlyProperties l pbLinkProperties = true.
Proof.
  intros H. destruct (decodeNode bytes) as [pbn|] eqn:D;
    [|unfold decode in H; rewrite D in H; discriminate].
  destruct (decode_links _ D H) as [_ [_ [ls [L M]]]]. split.
  - unfold decode in H. rewrite D in H. cbn [bind] in H.
    destruct (truthy (get pbn "Links")); [|inversion H; eauto].
    destruct (mapM _ _); simpl in H; inversion H; eauto.
  - rewrite L. simpl. apply mapM_Forall2 in M. clear - M.
    induction M as [|a b la lb Hab M IH]; intros l Hl; [contradiction|].
    destruct Hl as [<-|Hl]; [|now apply IH]. split.
    + now apply decodeLinkObj_object with (w := a).
    + now apply decodeLinkObj_fields with (w := a).
Qed.

Lemma sameLink_validLink (l m : JsVal) :
  sameLink l m -> validLink m ->
  (exists props, l = VObj props) -> hasOnlyProperties l pbLinkProperties = true ->
  validLink l.
Proof.
  intros [H [N T]] [_ [_ [[c Hc] [HN HT]]]] P K.
  split; [exact P|]. split; [now apply hasOnlyProperties_iff|].
  split; [exists c; congruence|]. split.
  - unfold nameTyped in *. now rewrite N.
  - destruct HT as [HT|[q [HT Hq]]]; rewrite HT in T.
    + left. destruct (get l "Tsize"); simpl in T; congruence.
    + destruct (get l "Tsize") as [| | |p| | | | |] eqn:E; simpl in T; try discriminate.
      right. exists p. split; [reflexivity|]. exact (Qeq_integer T Hq).
Qed.

Lemma structurallyEqual_valid (out node : JsVal) :
  validate node = Ok tt -> structurallyEqual out node ->
  (exists props, out = VObj props) ->
  hasOnlyProperties out pbNodeProperties = true ->
  (exists ls, get out "Links" = VArr ls) ->
  (forall l, In l (elements (get out "Links")) ->
             (exists props, l = VObj props)
             /\ hasOnlyProperties l pbLinkProperties = true) ->
  validate out = Ok tt.
Proof.
  intros V [D F] P K [ls L] HO.
  rewrite validate_ok, nodeChecks_iff in V.
  destruct V as [[_ [_ [HD [ln Ln]]]] [W O]].
  rewrite L in F, HO. rewrite Ln in F, W, O. simpl in F, HO, W, O.
  rewrite validate_ok, nodeChecks_iff, L. simpl elements.
  split; [|split].
  - split; [exact P|]. split; [now apply hasOnlyProperties_iff|].
    split; [now rewrite D|]. now exists ls.
  - clear - F W HO. intros j Hj.
    assert (G : forall l, In l ls -> validateLink l = Ok tt).
    { clear j Hj. induction F as [|a b la lb Hab F IH]; intros l Hl; [contradiction|].
      destruct Hl as [<-|Hl].
      - apply validateLink_validLink.
        destruct (HO a (or_introl eq_refl)) as [Pa Ka].
        apply sameLink_validLink with (m := b); try assumption.
        apply validateLink_validLink. exact (W 0%nat (Nat.lt_0_succ _)).
      - apply IH; try assumption.
        + intros j Hj. exact (W (S j) (proj1 (Nat.succ_lt_mono _ _) Hj)).
        + intros x Hx. apply HO. now right. }
    apply G, nth_In, Hj.
  - intros [j [Hj C]]. apply O. exists j.
    pose proof (Forall2_length F) as Hlen. split; [lia|].
    assert (Nth : forall i, (i < List.length ls)%nat ->
                    get (nth i ls VUndefined) "Name" = get (nth i ln VUndefined) "Name").
    { clear - F. induction F as [|a b la lb [_ [N _]] F IH]; intros i Hi;
        [simpl in Hi; lia|]. destruct i; [exact N|]. apply IH. simpl in Hi. lia. }
    rewrite <- C. symmetry. apply linkComparator_names; apply Nth; lia.
Qed.

(** X17. Decoding and encoding again is stable: for a node that passes
    [validate], when [encode] turns it into bytes and the wire parser
    reads these bytes back as the record [encode] wrote, the node [decode]
    makes of the bytes passes [validate] too, and [encode] turns it into
    the very same bytes.  The CID library is taken to read back the bytes
    it writes. *)
Theorem reencode_stable (node pbn : JsVal) (bytes : list byte) :
  cidRoundTrips -> validate node = Ok tt ->
  encode node = Ok bytes ->
  decodeNode bytes = Ok pbn -> wireGivesBack pbn node ->
  exists out,
    decode bytes = Ok out /\ validate out = Ok tt /\ encode out = Ok bytes.
Proof.
  intros Law V E DN G. pose proof V as V'. rewrite validate_ok in V'.
  destruct V' as [NC [W _]].
  destruct (nodeChecks_fields _ NC) as [[links HL] HD].
  destruct (decodeNode_shape _ DN) as [ws [HW _]].
  rewrite HL in W; simpl in W.
  destruct (@node_roundtrip _ node pbn links ws bytes Law HL HD) as [out [D S]];
    try assumption.
  { intros l Hl. now apply linksWellFormed_In with (links := links). }
  exists out. split; [exact D|].
  destruct (decode_object _ D) as [P HO].
  destruct (decode_links _ DN D) as [_ [K [ls [L _]]]].
  assert (Vo : validate out = Ok tt).
  { apply structurallyEqual_valid with (node := node); try assumption. now exists ls. }
  split; [exact Vo|]. rewrite <- E. now apply encode_structurallyEqual.
Qed.

End FurtherProperties.

(** * Properties of the older variant *)

Section LegacyProperties.

Context {cidlib : ContentIdentifier}.

Variable CID_from : JsVal -> option CID.
Variable CID_new : JsVal -> result CID.
Variable protoEncode : JsVal -> result (list byte).
Variable protoDecode : list byte -> result (JsVal * list JsVal).
Variable ToString : JsVal -> string.
Variable gtZero : JsVal -> bool.

Lemma list_byte_of_string_nonempty (s : string) :
  s <> "" -> list_byte_of_string s <> [].
Proof. destruct s; [congruence|discriminate]. Qed.

Lemma legacy_prepare_record (props : list (string * JsVal)) (out : JsVal) :
  Legacy.prepare CID_from ToString gtZero (VObj props) = Ok out ->
  get out "Data" = VUndefined
  \/ exists d, d <> [] /\ get out "Data" = VBytes d.
Proof.
  unfold Legacy.prepare. simpl.
  set (pbn := if truthy (get (VObj props) "Data") then _ else []).
  assert (Hp : pbn = [] \/ exists d, d <> [] /\ pbn = [("Data", VBytes d)]).
  { subst pbn. destruct (get (VObj props) "Data") as [| |b|q|s|d|c|l|o]; simpl;
      try (now left).
    all: repeat match goal with
                | |- context [if ?b then _ else _] => destruct b eqn:?
                end; try (now left).
    - right. exists (list_byte_of_string s). split; [|reflexivity].
      apply list_byte_of_string_nonempty. intros ->. discriminate.
    - right. exists d. split; [|reflexivity]. intros ->. discriminate. }
  assert (G : forall v, get (VObj (setProp "Links" v pbn)) "Data" = VUndefined
                        \/ exists d, d <> [] /\ get (VObj (setProp "Links" v pbn)) "Data" = VBytes d).
  { intros v. rewrite get_setProp_other by discriminate.
    destruct Hp as [->|[d [Hd ->]]]; [now left|]. right. exists d. now split. }
  destruct (truthy (get (VObj props) "Links") && _).
  - destruct (Legacy.mapAndSort _ _ _); simpl; [|discriminate].
    intros E; inversion E. apply G.
  - intros E; inversion E. apply G.
Qed.

(** X18. The older [prepare] never returns an empty Data: the Data of its
    result is absent or a byte sequence that is not empty, and the empty
    byte sequence, like the empty string, gives a node with no Data at
    all (where the current [prepare] keeps an empty Data). *)
Theorem legacy_prepare_no_empty_data (node out : JsVal) :
  (Legacy.prepare CID_from ToString gtZero node = Ok out ->
   get out "Data" = VUndefined
   \/ exists d, d <> [] /\ get out "Data" = VBytes d)
  /\ Legacy.prepare CID_from ToString gtZero (VBytes [])
     = Ok (VObj [("Links", VArr [])])
  /\ Legacy.prepare CID_from ToString gtZero (VStr "")
     = Ok (VObj [("Links", VArr [])]).
Proof.
  split; [|split; reflexivity].
  destruct node; try discriminate.
  - apply (legacy_prepare_record [("Data", VStr s)]).
  - apply (legacy_prepare_record [("Data", VBytes b)]).
  - intros E; inversion E. now left.
  - apply legacy_prepare_record.
Qed.

(** X19. What the older [asLink] returns always has the three properties
    Hash, Name and Tsize.  When [link.asCID] is an object ([null]
    included), as it is for a content identifier given in place of a
    link, the result is [CID.asCID(link)] with the empty Name and Tsize 0,
    whatever Name and Tsize the input has.  Otherwise the Hash is the
    content identifier [CID.from] makes of [link.Hash], the Name is
    [link.Name] when that is truthy, of whatever type, and the empty
    string when it is not, and the Tsize is [link.Tsize] when that is
    truthy and 0 when it is not. *)
Theorem legacy_asLink_defaults (link out : JsVal) :
  (Legacy.asLink CID_from link = Ok out ->
   keys out = ["Hash"; "Name"; "Tsize"]
   /\ (typeof (Legacy.asCIDOf link) = "object" ->
       get out "Hash" = match CID_asCID link with
                        | Some c => VCid c
                        | None => VNull
                        end
       /\ get out "Name" = VStr "" /\ get out "Tsize" = VNum 0)
   /\ (typeof (Legacy.asCIDOf link) <> "object" ->
       (exists c, CID_from (get link "Hash") = Some c /\ get out "Hash" = VCid c)
       /\ get out "Name"
          = (if truthy (get link "Name") then get link "Name" else VStr "")
       /\ get out "Tsize"
          = (if truthy (get link "Tsize") then get link "Tsize" else VNum 0)))
  /\ (forall c, Legacy.asLink CID_from (VCid c)
                = Ok (VObj [("Hash", VCid c); ("Name", VStr ""); ("Tsize", VNum 0)])).
Proof.
  split; [|reflexivity].
  intros H.
  assert (L : link <> VUndefined /\ link <> VNull)
    by (split; intros ->; discriminate H).
  assert (B : Legacy.asLink CID_from link
              = if (typeof (Legacy.asCIDOf link) =? "object")%string
                then Ok (VObj [("Hash", match CID_asCID link with
                                        | Some c => VCid c
                                        | None => VNull
                                        end);
                               ("Name", VStr ""); ("Tsize", VNum 0)])
                else match CID_from (get link "Hash") with
                     | None => Throw (TypeError "Invalid DAG-PB form (bad Hash/CID)")
                     | Some cid =>
                         Ok (VObj [("Hash", VCid cid);
                                   ("Name", Legacy.orElse (get link "Name") (VStr ""));
                                   ("Tsize", Legacy.orElse (get link "Tsize") (VNum 0))])
                     end)
    by (destruct L as [L1 L2]; destruct link; try reflexivity; congruence).
  rewrite B in H. clear B.
  destruct (String.eqb_spec (typeof (Legacy.asCIDOf link)) "object") as [T|T].
  - inversion H; subst; clear H.
    split; [reflexivity|]. split; [|intros N; now elim N].
    intros _. repeat split.
  - destruct (CID_from (get link "Hash")) as [cid|] eqn:F; [|discriminate H].
    inversion H; subst; clear H.
    split; [reflexivity|]. split; [intros N; now elim T|].
    intros _. split; [now exists cid|]. split; reflexivity.
Qed.

(** ** The two validators *)

Lemma legacy_linkComparator_strings (a b : JsVal) (s t : string) :
  get a "Name" = VStr s -> get b "Name" = VStr t ->
  Legacy.linkComparator ToString a b = linkComparator a b.
Proof.
  intros Ha Hb. unfold Legacy.linkComparator, linkComparator, nameBuf.
  rewrite Ha, Hb. destruct s, t; reflexivity.
Qed.

Lemma legacy_validateLink_name (l : JsVal) :
  Legacy.validateLink l = Ok tt ->
  (exists s, get l "Name" = VStr s) /\ isInteger (get l "Tsize") = true
  /\ (truthy (get l "Hash") = true -> isCID (get l "Hash") = true).
Proof.
  unfold Legacy.validateLink.
  destruct (negb (truthy l) || _ || isArray l); [discriminate|].
  destruct (negb (hasOnlyProperties l pbLinkProperties)); [discriminate|].
  destruct (truthy (get l "Hash") && negb (isCID (get l "Hash"))) eqn:H; [discriminate|].
  destruct (get l "Name") eqn:N; simpl; try discriminate.
  destruct (negb (typeof (get l "Tsize") =? "number")%string
            || negb (isInteger (get l "Tsize"))) eqn:T; [discriminate|].
  intros _. apply orb_false_elim in T as [_ T]. apply negb_false_iff in T.
  split; [eauto|]. split; [exact T|].
  intros Ht. rewrite Ht in H. simpl in H. now apply negb_false_iff in H.
Qed.

Lemma validateLink_legacy (l : JsVal) :
  truthy (get l "Hash") = true -> get l "Name" <> VUndefined ->
  get l "Tsize" <> VUndefined ->
  validateLink l = Legacy.validateLink l.
Proof.
  intros H N T. unfold validateLink, Legacy.validateLink.
  destruct (negb (truthy l) || _ || isArray l); [reflexivity|].
  destruct (negb (hasOnlyProperties l pbLinkProperties)); [reflexivity|].
  rewrite H. simpl.
  destruct (negb (isCID (get l "Hash"))); [reflexivity|].
  destruct (get l "Name"); try (now elim N); simpl; try reflexivity.
  destruct (get l "Tsize"); try (now elim T); reflexivity.
Qed.

Lemma validateLinks_legacy (links : list JsVal) (n : nat) :
  (forall l, In l links ->
     truthy (get l "Hash") = true /\ get l "Name" <> VUndefined
     /\ get l "Tsize" <> VUndefined) ->
  forall i,
    (i + n <= List.length links)%nat ->
    ((0 < i)%nat -> exists s, get (nth (i - 1) links VUndefined) "Name" = VStr s) ->
    isOk (validateLinks links n i) = isOk (Legacy.validateLinks ToString links n i).
Proof.
  intros Hall. induction n as [|n IH]; intros i Hi Hprev; [reflexivity|].
  cbn [validateLinks Legacy.validateLinks].
  assert (Hin : In (nth i links VUndefined) links) by (apply nth_In; lia).
  destruct (Hall _ Hin) as [H [N T]].
  rewrite (validateLink_legacy _ H N T).
  destruct (Legacy.validateLink (nth i links VUndefined)) as [[]|e] eqn:V;
    [|reflexivity].
  cbn [bind]. destruct (legacy_validateLink_name _ V) as [[s Hs] _].
  destruct (Nat.ltb_spec 0 i) as [Hp|Hp]; cbn [andb].
  - destruct (Hprev Hp) as [t Ht].
    rewrite (legacy_linkComparator_strings _ _ Hs Ht).
    destruct (linkComparator _ _ =? -1); [reflexivity|].
    apply IH; [lia|]. intros _. replace (S i - 1)%nat with i by lia. eauto.
  - apply IH; [lia|]. intros _. replace (S i - 1)%nat with i by lia. eauto.
Qed.

(** X20. The two validators agree on the nodes both variants can
    describe: when the Data is absent or truthy and every link has a
    truthy Hash, a Name and a Tsize, the current [validate] accepts the
    node exactly when the older one does. *)
Theorem validators_agree (node : JsVal) :
  (get node "Data" = VUndefined \/ truthy (get node "Data") = true) ->
  (forall l, In l (elements (get node "Links")) ->
     truthy (get l "Hash") = true /\ get l "Name" <> VUndefined
     /\ get l "Tsize" <> VUndefined) ->
  (validate node = Ok tt <-> Legacy.validate ToString node = Ok tt).
Proof.
  intros HD Hall.
  assert (E : isOk (validate node) = isOk (Legacy.validate ToString node)).
  { unfold validate, Legacy.validate.
    destruct (negb (truthy node) || _ || isArray node); [reflexivity|].
    destruct (negb (hasOnlyProperties node pbNodeProperties)); [reflexivity|].
    assert (D : negb (isUndefined (get node "Data")) && negb (isUint8Array (get node "Data"))
                = truthy (get node "Data") && negb (isUint8Array (get node "Data"))).
    { destruct HD as [->|HD]; [reflexivity|]. rewrite HD.
      destruct (get node "Data"); try discriminate HD; reflexivity. }
    rewrite D.
    destruct (truthy (get node "Data") && negb (isUint8Array (get node "Data")));
      destruct (isArray (get node "Links")); try reflexivity.
    apply validateLinks_legacy; [exact Hall|simpl; lia|lia]. }
  split; intros V.
  - rewrite V in E. destruct (Legacy.validate ToString node) as [[]|]; [reflexivity|discriminate].
  - rewrite V in E. destruct (validate node) as [[]|]; [reflexivity|discriminate].
Qed.

Lemma legacy_validateLink_error (l : JsVal) (e : exn) :
  Legacy.validateLink l = Throw e -> exists msg, e = TypeError msg.
Proof.
  unfold Legacy.validateLink; intros H.
  repeat match type of H with
         | (if ?c then _ else _) = _ => destruct c
         end; inversion H; eauto.
Qed.

Lemma legacy_validateLinks_error (links : list JsVal) (n i : nat) (e : exn) :
  Legacy.validateLinks ToString links n i = Throw e -> exists msg, e = TypeError msg.
Proof.
  revert i; induction n as [|n IH]; intros i; simpl; [discriminate|].
  destruct (Legacy.validateLink (nth i links VUndefined)) as [[]|e'] eqn:E; simpl.
  - destruct (_ && _); [intros H; inversion H; eauto | apply IH].
  - intros H; inversion H; subst. eapply legacy_validateLink_error; eassumption.
Qed.

Lemma legacy_validate_error (node : JsVal) (e : exn) :
  Legacy.validate ToString node = Throw e -> exists msg, e = TypeError msg.
Proof.
  unfold Legacy.validate; intros H.
  repeat match type of H with
         | (if ?c then _ else _) = _ => destruct c
         end; try (inversion H; eauto; fail).
  eapply legacy_validateLinks_error; eassumption.
Qed.

Lemma legacy_validateLinks_links (links : list JsVal) (n : nat) :
  forall i, Legacy.validateLinks ToString links n i = Ok tt ->
            forall j, (i <= j < i + n)%nat ->
                      Legacy.validateLink (nth j links VUndefined) = Ok tt.
Proof.
  induction n as [|n IH]; intros i H j Hj; [lia|]. simpl in H.
  destruct (Legacy.validateLink (nth i links VUndefined)) as [[]|] eqn:E;
    simpl in H; [|discriminate].
  destruct (_ && _); [discriminate|].
  destruct (Nat.eq_dec j i) as [->|Hne]; [exact E|]. eapply IH; [exact H|lia].
Qed.

Lemma legacy_validate_links (node link : JsVal) :
  Legacy.validate ToString node = Ok tt -> In link (elements (get node "Links")) ->
  Legacy.validateLink link = Ok tt.
Proof.
  unfold Legacy.validate. intros H Hin.
  destruct (negb (truthy node) || _ || isArray node); [discriminate|].
  destruct (negb (hasOnlyProperties node pbNodeProperties)); [discriminate|].
  destruct (negb (isArray (get node "Links"))); [discriminate|].
  destruct (truthy (get node "Data") && _); [discriminate|].
  destruct (In_nth _ _ VUndefined Hin) as [j [Hj <-]].
  eapply legacy_validateLinks_links; [exact H|lia].
Qed.

(** X21. The older [validate] asks for a Name and a Tsize on every link:
    a link with either one absent makes it raise a form error, though the
    current [validate] accepts a link that has only a Hash. *)
Theorem legacy_requires_name_and_tsize (node link : JsVal) :
  (In link (elements (get node "Links")) ->
   get link "Name" = VUndefined \/ get link "Tsize" = VUndefined ->
   exists msg, Legacy.validate ToString node = Throw (TypeError msg))
  /\ (forall c,
        validate (VObj [("Links", VArr [VObj [("Hash", VCid c)]])]) = Ok tt
        /\ Legacy.validate ToString (VObj [("Links", VArr [VObj [("Hash", VCid c)]])])
           = Throw (TypeError "Invalid DAG-PB form (link Name must be a string)")).
Proof.
  split; [|intros c; split; reflexivity].
  intros Hin Hmiss.
  destruct (Legacy.validate ToString node) as [[]|e] eqn:V.
  - exfalso. pose proof (legacy_validate_links _ _ V Hin) as VL.
    destruct (legacy_validateLink_name _ VL) as [[s Hs] [HT _]].
    destruct Hmiss as [N|T]; [congruence|]. rewrite T in HT. discriminate.
  - destruct (legacy_validate_error _ V) as [msg ->]. now exists msg.
Qed.

(** X22. The older [validate] lets a link have no Hash, and the older
    [encode] then fails on the node its own validator accepted: reading
    the bytes of the absent Hash throws a [TypeError] before the encoder
    of [protons] is reached, whatever that encoder does. *)
Theorem legacy_encode_missing_hash (node link : JsVal) :
  (Legacy.validate ToString node = Ok tt ->
   In link (elements (get node "Links")) ->
   get link "Hash" = VUndefined \/ get link "Hash" = VNull ->
   exists msg, Legacy.encode protoEncode ToString node = Throw (TypeError msg))
  /\ (forall s t,
        Legacy.validate ToString
          (VObj [("Links", VArr [VObj [("Name", VStr s);
                                       ("Tsize", VNum (inject_Z t))]])])
        = Ok tt).
Proof.
  split.
  - intros V Hin HH. unfold Legacy.encode. rewrite V. cbn [bind].
    set (f := fun l : JsVal =>
                h <- Legacy.bytesProp (get l "Hash") ;;
                Ok (VObj [("Hash", h); ("Name", get l "Name"); ("Tsize", get l "Tsize")])).
    assert (F : isOk (mapM f (elements (get node "Links"))) = false).
    { apply mapM_In_fails with (a := link); [assumption|].
      subst f. cbv beta. destruct HH as [-> | ->]; reflexivity. }
    destruct (mapM f (elements (get node "Links"))) as [ls|e] eqn:M; [discriminate|].
    assert (Pe : exists msg, e = TypeError msg).
    { apply (mapM_error f (fun e => exists msg, e = TypeError msg)
               (elements (get node "Links"))); [|exact M].
      intros a e'. subst f. cbv beta.
      destruct (get a "Hash"); simpl; try discriminate;
        intros E; inversion E; eauto. }
    destruct Pe as [msg ->]. exists msg. reflexivity.
  - intros s t. unfold Legacy.validate, get; simpl.
    unfold Legacy.validateLink, get; simpl. unfold mod1; simpl.
    now rewrite Z.rem_1_r.
Qed.

(** X23. The older [decode] always gives a Data: the Data of the decoded
    record when it has one, the empty byte sequence when it is [null] or
    [undefined].  It returns the decoded links one for one, in order,
    each with a Name, a Tsize and a Hash property, in that order: the Name
    and the Tsize of the decoded link as they are, and as Hash the content
    identifier [new CID] makes of the decoded Hash. *)
Theorem legacy_decode_materializes_data (bytes : list byte) (out : JsVal) :
  Legacy.decode CID_new protoDecode bytes = Ok out ->
  get out "Data" <> VUndefined /\ get out "Data" <> VNull
  /\ exists data links,
       protoDecode bytes = Ok (data, links)
       /\ get out "Data" = match data with
                           | VUndefined | VNull => VBytes []
                           | _ => data
                           end
       /\ Forall2 (fun w l =>
                     keys l = ["Name"; "Tsize"; "Hash"]
                     /\ get l "Name" = get w "Name"
                     /\ get l "Tsize" = get w "Tsize"
                     /\ exists c, CID_new (get w "Hash") = Ok c
                                  /\ get l "Hash" = VCid c)
            links (elements (get out "Links")).
Proof.
  unfold Legacy.decode.
  destruct (protoDecode bytes) as [[data links]|] eqn:P; simpl; [|discriminate].
  set (f := fun link : JsVal =>
              cid <- CID_new (get link "Hash") ;;
              Ok (VObj [("Name", get link "Name"); ("Tsize", get link "Tsize");
                        ("Hash", VCid cid)])).
  destruct (mapM f links) as [ls|] eqn:M; simpl; [|discriminate].
  intros E; inversion E; clear E. apply mapM_Forall2 in M.
  assert (G : forall v, get (VObj [("Links", VArr ls); ("Data", v)]) "Data" = v)
    by reflexivity.
  assert (L : elements (get (VObj [("Links", VArr ls);
                                   ("Data", match data with
                                            | VUndefined | VNull => VBytes []
                                            | _ => data
                                            end)]) "Links") = ls) by reflexivity.
  rewrite G, L.
  split; [destruct data; discriminate|].
  split; [destruct data; discriminate|].
  exists data, links. split; [reflexivity|]. split; [reflexivity|].
  clear - M. induction M as [|a b la lb Hab M IH]; constructor; [|exact IH].
  subst f. cbv beta in Hab.
  destruct (CID_new (get a "Hash")) as [c|] eqn:N; simpl in Hab; [|discriminate].
  inversion Hab; subst; clear Hab.
  split; [reflexivity|]. split; [reflexivity|]. split; [reflexivity|].
  now exists c.
Qed.

End LegacyProperties.

(** * The further properties on concrete inputs *)

Module FurtherExamples.

Import ToyCID FurtherSamples.

Lemma linkComparator_total_preorder_witness : linkComparator linkA linkB <= 0.
Proof.
  destruct (@linkComparator_total_preorder lib linkA linkAB linkB) as [_ [_ [T _]]].
  apply T; vm_compute; discriminate.
Defined.

Lemma linkComparator_zero_iff_witness : linkComparator linkA linkA2 = 0.
Proof.
  assert (Ha : nameTyped linkA) by (right; eexists; reflexivity).
  assert (Hb : nameTyped linkA2) by (right; eexists; reflexivity).
  apply (@linkComparator_zero_iff lib linkA linkA2 Ha Hb). reflexivity.
Defined.

Lemma hasOnlyProperties_spec_witness :
  hasOnlyProperties nodeExtra pbNodeProperties = false.
Proof.
  assert (Hn : nodeExtra <> VNull) by discriminate.
  destruct (@hasOnlyProperties_spec lib nodeExtra pbNodeProperties eq_refl Hn eq_refl)
    as [[H _] _].
  destruct (hasOnlyProperties nodeExtra pbNodeProperties) eqn:E; [|reflexivity].
  exfalso. destruct (H eq_refl "Extra") as [X|[X|[]]];
    [simpl; tauto|discriminate X|discriminate X].
Defined.

Lemma validate_accepts_exactly_witness : validNode nodeAB.
Proof. apply (@validate_accepts_exactly lib nodeAB). reflexivity. Defined.

Lemma validate_node_errors_witness :
  validate nodeExtra = Throw (TypeError "Invalid DAG-PB form (extraneous properties)").
Proof.
  destruct (@validate_node_errors lib nodeExtra) as [_ [H _]].
  apply (H _ "Extra" eq_refl).
  - simpl. tauto.
  - intros [X|[X|[]]]; discriminate X.
Defined.

Lemma validate_fail_fast_witness :
  validate nodeSecondBad
  = Throw (TypeError "Invalid DAG-PB form (link must have a Hash)").
Proof.
  destruct (@validate_fail_fast lib nodeSecondBad [linkA; linkNoHash] 1%nat)
    as [H _].
  - reflexivity.
  - reflexivity.
  - simpl. lia.
  - intros j Hj. assert (j = 0)%nat as -> by lia. split; [reflexivity|lia].
  - apply H. reflexivity.
Defined.

Lemma encode_depends_on_fields_witness : encode nodeAB = encode nodeABswapped.
Proof.
  destruct (@encode_depends_on_fields lib nodeAB nodeABswapped) as [_ H].
  apply H; try reflexivity.
  repeat constructor.
Defined.

Lemma prepare_idempotent_witness :
  prepare (VObj [("Links", VArr [linkA; linkB])])
  = Ok (VObj [("Links", VArr [linkA; linkB])]).
Proof. apply (@prepare_idempotent lib inputBA). reflexivity. Defined.

Lemma prepare_valid_iff_witness :
  validate (VObj [("Links", VArr [linkA; linkB])]) = Ok tt.
Proof.
  destruct (@prepare_valid_iff lib inputBA (VObj [("Links", VArr [linkA; linkB])])
              eq_refl) as [_ H].
  apply H. intros l [<-|[<-|[]]]; left; reflexivity.
Defined.

Lemma prepare_links_permutation_witness :
  exists ls, mapM asLink (elements (get inputBA "Links")) = Ok ls
             /\ Permutation ls [linkA; linkB]
             /\ List.length [linkA; linkB] = 2%nat.
Proof.
  exact (@prepare_links_permutation lib inputBA
           (VObj [("Links", VArr [linkA; linkB])]) _ eq_refl eq_refl).
Defined.

Lemma prepare_data_normalization_witness :
  get (VObj [("Links", VArr [])]) "Data" = VUndefined.
Proof.
  destruct (@prepare_data_normalization lib) as [_ [_ H]].
  exact (H [("Data", VNum (inject_Z 5))] (VObj [("Links", VArr [])]) eq_refl).
Defined.

Lemma prepare_leniency_and_errors_witness :
  exists out, prepare (VObj [("Links", VStr "abc")]) = Ok out
              /\ get out "Links" = VArr [].
Proof.
  destruct (@prepare_leniency_and_errors lib (VObj [("Links", VStr "abc")]))
    as [_ [_ H]].
  apply (H _ eq_refl). intros l ls E. discriminate E.
Defined.

Lemma asLink_output_witness :
  asLink linkLoose = Ok (VObj [("Hash", VCid cidA); ("Tsize", VNum (3 # 2))])
  /\ hasOnlyProperties (VObj [("Hash", VCid cidA); ("Tsize", VNum (3 # 2))])
       pbLinkProperties = true.
Proof.
  split; [reflexivity|].
  apply (@asLink_output lib linkLoose). reflexivity.
Defined.

Lemma decode_copies_fields_witness :
  exists pbn out,
    decodeNode wireBA = Ok pbn /\ decode wireBA = Ok out
    /\ get out "Data" = VUndefined
    /\ hasOnlyProperties out pbNodeProperties = true.
Proof.
  eexists. eexists.
  assert (D : decodeNode wireBA
              = Ok (VObj [("Links",
                           VArr [VObj [("Hash", VBytes (x01 :: cidB)); ("Name", VStr "b")];
                                 VObj [("Hash", VBytes (x01 :: cidA)); ("Name", VStr "a")]])]))
    by reflexivity.
  assert (E : decode wireBA = Ok (VObj [("Links", VArr [linkB; linkA])])) by reflexivity.
  destruct (@decode_copies_fields lib wireBA _ _ D E) as [HD [K _]].
  split; [exact D|]. split; [exact E|]. split; [exact HD|exact K].
Defined.

Lemma decode_succeeds_iff_witness : exists out, decode wireBA = Ok out.
Proof.
  apply (@decode_succeeds_iff lib wireBA
           (VObj [("Links",
                   VArr [VObj [("Hash", VBytes (x01 :: cidB)); ("Name", VStr "b")];
                         VObj [("Hash", VBytes (x01 :: cidA)); ("Name", VStr "a")]])])
           eq_refl).
  intros w [<-|[<-|[]]]; eexists; reflexivity.
Defined.

Lemma decode_does_not_validate_witness :
  exists out, decode wireBA = Ok out
              /\ isFormError (validate out) /\ isFormError (encode out).
Proof.
  apply (@decode_does_not_validate lib wireBA
           (VObj [("Links",
                   VArr [VObj [("Hash", VBytes (x01 :: cidB)); ("Name", VStr "b")];
                         VObj [("Hash", VBytes (x01 :: cidA)); ("Name", VStr "a")]])])
           (VObj [("Hash", VBytes (x01 :: cidB)); ("Name", VStr "b")])
           (VObj [("Hash", VBytes (x01 :: cidA)); ("Name", VStr "a")]));
    try reflexivity; eexists; reflexivity.
Defined.

Lemma reencode_stable_witness :
  exists out,
    decode bytesRT = Ok out /\ validate out = Ok tt /\ encode out = Ok bytesRT.
Proof.
  apply (@reencode_stable lib nodeRT pbnRT bytesRT).
  - intros c. reflexivity.
  - reflexivity.
  - reflexivity.
  - reflexivity.
  - split; [reflexivity|].
    constructor; [repeat split|].
    constructor; [repeat split|constructor].
Defined.

Lemma legacy_prepare_no_empty_data_witness :
  get (VObj [("Links", VArr [])]) "Data" = VUndefined
  \/ exists d, d <> [] /\ get (VObj [("Links", VArr [])]) "Data" = VBytes d.
Proof.
  destruct (@legacy_prepare_no_empty_data lib toyFrom toyToString toyGtZero
              (VObj [("Data", VBytes [])]) (VObj [("Links", VArr [])])) as [H _].
  apply H. reflexivity.
Defined.

Lemma legacy_asLink_defaults_witness :
  get (VObj [("Hash", VCid cidA); ("Name", VStr "a"); ("Tsize", VNum 0)]) "Name"
  = VStr "a".
Proof.
  destruct (@legacy_asLink_defaults lib toyFrom
              (VObj [("Hash", VCid cidA); ("Name", VStr "a")])
              (VObj [("Hash", VCid cidA); ("Name", VStr "a"); ("Tsize", VNum 0)]))
    as [H _].
  destruct (H eq_refl) as [_ [_ K]].
  assert (T : typeof (Legacy.asCIDOf (VObj [("Hash", VCid cidA); ("Name", VStr "a")]))
              <> "object") by discriminate.
  destruct (K T) as [_ [N _]]. exact N.
Defined.

Lemma validators_agree_witness : Legacy.validate toyToString nodeFull = Ok tt.
Proof.
  apply (@validators_agree lib toyToString nodeFull).
  - left. reflexivity.
  - intros l [<-|[]]. repeat split; discriminate.
  - reflexivity.
Defined.

Lemma legacy_requires_name_and_tsize_witness :
  exists msg, Legacy.validate toyToString nodeHashOnly = Throw (TypeError msg).
Proof.
  destruct (@legacy_requires_name_and_tsize lib toyToString nodeHashOnly
              (VObj [("Hash", VCid cidA)])) as [H _].
  apply H.
  - left. reflexivity.
  - left. reflexivity.
Defined.

Lemma legacy_encode_missing_hash_witness :
  exists msg,
    Legacy.encode toyProtoEncode toyToString nodeNoHashLegacy = Throw (TypeError msg).
Proof.
  destruct (@legacy_encode_missing_hash lib toyProtoEncode toyToString nodeNoHashLegacy
              (VObj [("Name", VStr "a"); ("Tsize", VNum (inject_Z 0))])) as [H _].
  apply H.
  - reflexivity.
  - left. reflexivity.
  - left. reflexivity.
Defined.

Lemma legacy_decode_materializes_data_witness :
  get (VObj [("Links", VArr [VObj [("Name", VStr "a"); ("Tsize", VUndefined);
                                   ("Hash", VCid cidA)]]);
             ("Data", VBytes [])]) "Data" <> VUndefined.
Proof.
  destruct (@legacy_decode_materializes_data lib toyNew toyProtoDecode
              [x12; x08; x0a; x03; x01; x70; x00; x12; x01; x61]
              (VObj [("Links", VArr [VObj [("Name", VStr "a"); ("Tsize", VUndefined);
                                           ("Hash", VCid cidA)]]);
                     ("Data", VBytes [])]) eq_refl) as [H _].
  exact H.
Defined.

End FurtherExamples.
